(** * agatexml.table_html: span expansion of HTML tables

    A shallow embedding of [src/agatexml/table_html.py]: the row
    classifier of [from_html], the cell extractor and the
    colspan/rowspan expansion [expand_colspan_rowspan].

    Conventions.
    - A Python [str] is a [string]; one [ascii] stands for one code
      point below 256.
    - A Python [int] is a [Z].
    - A Python [dict] of tag attributes is a [gmap string string].
    - A Python exception is a constructor of [exn]; code that can raise
      returns a [pyresult]. *)

From Stdlib Require Import ZArith List String Ascii Bool Lia.
From stdpp Require Import gmap strings list.
From Equations Require Import Equations.
Import ListNotations.

Local Open Scope string_scope.
Local Open Scope Z_scope.
Local Open Scope list_scope.

(** ** Exceptions *)

Inductive exn : Type :=
| ValueError (literal : string)
| IndexError
| UnboundLocalError (variable : string)
| KeyError (message : string)
| Exception (message : string).

Inductive pyresult (A : Type) : Type :=
| Ok (a : A)
| Raise (e : exn).
Arguments Ok {A} a.
Arguments Raise {A} e.

Definition bind {A B} (m : pyresult A) (k : A -> pyresult B) : pyresult B :=
  match m with
  | Ok a => k a
  | Raise e => Raise e
  end.

Notation "x <-- m ;; k" := (bind m (fun x => k))
  (at level 100, m at next level, right associativity).

(** ** Python built-ins used by the module *)

Module Py.

(** [str.isspace] on one code point below 256. *)
Definition isspace (c : ascii) : bool :=
  let n := N_of_ascii c in
  (((9 <=? n) && (n <=? 13)) || ((28 <=? n) && (n <=? 32))
   || (n =? 133) || (n =? 160))%N.

(** The whitespace [int] skips around a literal: that of the C locale
    below 127, the whitespace of [str.isspace] above. *)
Definition int_space (c : ascii) : bool :=
  let n := N_of_ascii c in
  (((9 <=? n) && (n <=? 13)) || (n =? 32) || (n =? 133) || (n =? 160))%N.

Fixpoint drop_leading (space : ascii -> bool) (l : list ascii) : list ascii :=
  match l with
  | c :: l' => if space c then drop_leading space l' else l
  | [] => []
  end.

Definition trim (space : ascii -> bool) (l : list ascii) : list ascii :=
  rev (drop_leading space (rev (drop_leading space l))).

(** [s.strip()] *)
Definition strip (l : list ascii) : list ascii := trim isspace l.

Definition isdigit (c : ascii) : bool :=
  let n := N_of_ascii c in ((48 <=? n) && (n <=? 57))%N.

Definition digit_value (c : ascii) : Z := Z.of_N (N_of_ascii c) - 48.

(** Decimal digits with single underscores between digits, as
    [int] accepts them; [prev] tells whether the last character read
    was a digit. *)
Fixpoint digits (acc : Z) (prev : bool) (l : list ascii) : option Z :=
  match l with
  | [] => if prev then Some acc else None
  | c :: l' =>
      if isdigit c then digits (10 * acc + digit_value c) true l'
      else if Ascii.eqb c "_"%char then
        (if prev then digits acc false l' else None)
      else None
  end.

(** [int(s)] for a [str] argument, base 10: surrounding whitespace is
    dropped, one sign is allowed; [None] stands for [ValueError].
    The interpreter's limit on the number of digits is not modelled. *)
Definition int (s : string) : option Z :=
  match trim int_space (list_ascii_of_string s) with
  | c :: l =>
      if Ascii.eqb c "-"%char then option_map Z.opp (digits 0 false l)
      else if Ascii.eqb c "+"%char then digits 0 false l
      else digits 0 false (c :: l)
  | [] => None
  end.

(** [l[0:stop]] *)
Definition slice_to {A} (l : list A) (stop : Z) : list A :=
  if stop <? 0 then firstn (Z.to_nat (Z.of_nat (length l) + stop)) l
  else firstn (Z.to_nat stop) l.

(** [l[i]] *)
Definition index {A} (l : list A) (i : Z) : pyresult A :=
  let i' := if i <? 0 then Z.of_nat (length l) + i else i in
  if i' <? 0 then Raise IndexError
  else match nth_error l (Z.to_nat i') with
       | Some a => Ok a
       | None => Raise IndexError
       end.

(** [s.replace(" ", "")] *)
Fixpoint remove_spaces (s : string) : string :=
  match s with
  | EmptyString => EmptyString
  | String c s' =>
      if Ascii.eqb c " "%char then remove_spaces s' else String c (remove_spaces s')
  end.

(** [needle in hay] on two [str]. *)
Fixpoint contains (needle hay : string) : bool :=
  match hay with
  | EmptyString => String.prefix needle EmptyString
  | String _ hay' => String.prefix needle hay || contains needle hay'
  end.

End Py.

(** ** The parsed document *)

(** A tag of the parsed tree, as far as the module reads it: [obj.name],
    the attribute dictionary behind [obj.get], and [obj.text]. *)
Record Node : Type := mkNode {
  name : string;
  attrs : gmap string string;
  text : string;
}.

(** A [<tr>] with its direct child tags, in document order. *)
Record TrNode : Type := mkTr { tr_children : list Node }.

(** A [<table>]: what the selectors of the row parsers return on it. *)
Record TableNode : Type := mkTable {
  select_thead_tr : list TrNode;   (* table_html.select("thead tr") *)
  select_tbody_tr : list TrNode;   (* table_html.select("tbody tr") *)
  direct_tr : list TrNode;         (* table_html.find_all("tr", recursive=False) *)
  select_tfoot_tr : list TrNode;   (* table_html.select("tfoot tr") *)
}.

(** ** Cell extractor *)

Definition attr_getter (obj : Node) (attr : string) : option string :=
  attrs obj !! attr.

Definition text_getter (obj : Node) : string := text obj.

Definition equals_tag (obj : Node) (tag : string) : bool :=
  String.eqb (name obj) tag.

Definition parse_td (row_html : TrNode) : list Node :=
  List.filter (fun t => equals_tag t "td" || equals_tag t "th")
              (tr_children row_html).

Definition parse_thead_tr (table_html : TableNode) : list TrNode :=
  select_thead_tr table_html.

Definition parse_tbody_tr (table_html : TableNode) : list TrNode :=
  select_tbody_tr table_html ++ direct_tr table_html.

Definition parse_tfoot_tr (table_html : TableNode) : list TrNode :=
  select_tfoot_tr table_html.

Definition row_is_all_th (row_html : TrNode) : bool :=
  forallb (fun t => equals_tag t "th") (parse_td row_html).

(** ** Whitespace normalisation *)

(** [_RE_WHITESPACE.sub(" ", ...)] for the pattern [[\r\n]+|\s{2,}], read
    left to right.  [Copy]: no match is open; [InNewlines]: inside a match
    of the first alternative; [InSpaces]: inside a match of the second. *)
Inductive sub_state : Type := Copy | InNewlines | InSpaces.

Definition is_newline (c : ascii) : bool :=
  (N_of_ascii c =? 10)%N || (N_of_ascii c =? 13)%N.

Fixpoint sub_whitespace (st : sub_state) (l : list ascii) : list ascii :=
  match l with
  | [] => []
  | c :: l' =>
      let fresh :=
        if is_newline c then " "%char :: sub_whitespace InNewlines l'
        else if Py.isspace c && match l' with
                                | d :: _ => Py.isspace d
                                | [] => false
                                end
             then " "%char :: sub_whitespace InSpaces l'
             else c :: sub_whitespace Copy l' in
      match st with
      | Copy => fresh
      | InNewlines => if is_newline c then sub_whitespace InNewlines l' else fresh
      | InSpaces => if Py.isspace c then sub_whitespace InSpaces l' else fresh
      end
  end.

Definition _remove_whitespace (s : string) : string :=
  string_of_list_ascii (sub_whitespace Copy (Py.strip (list_ascii_of_string s))).

(** ** Span expansion *)

Definition DenseRow : Type := list string.

(** An entry [(index, text, nrows)] of [remainder]. *)
Definition Pending : Type := Z * string * Z.

Definition pending_text (p : Pending) : string := snd (fst p).
Definition pending_rowspan (p : Pending) : Z := snd p.

(** [int(attr_getter(td, attr) or 1)]: the empty string is falsy. *)
Definition span_attr (td : Node) (attr : string) : pyresult Z :=
  match attr_getter td attr with
  | None => Ok 1
  | Some s =>
      if String.eqb s "" then Ok 1
      else match Py.int s with
           | Some n => Ok n
           | None => Raise (ValueError s)
           end
  end.

(** The variables of one iteration of [for tr in rows]. *)
Record RowState : Type := mkRowState {
  remainder : list Pending;
  texts : DenseRow;
  next_remainder : list Pending;
  index : Z;
}.

(** [if prev_rowspan > 1: next_remainder.append((prev_i, prev_text, prev_rowspan - 1))] *)
Definition carry_over (p : Pending) (next : list Pending) : list Pending :=
  let '(prev_i, prev_text, prev_rowspan) := p in
  if 1 <? prev_rowspan then next ++ [(prev_i, prev_text, prev_rowspan - 1)]
  else next.

(** [while remainder and remainder[0][0] <= index: ...] *)
Fixpoint flush_before (rem : list Pending) (txt : DenseRow)
    (next : list Pending) (idx : Z) : RowState :=
  match rem with
  | p :: rem' =>
      if fst (fst p) <=? idx
      then flush_before rem' (txt ++ [pending_text p]) (carry_over p next) (idx + 1)
      else mkRowState rem txt next idx
  | [] => mkRowState [] txt next idx
  end.

(** [for _ in range(colspan): ...] *)
Fixpoint append_cell (n : nat) (cell_text : string) (rowspan : Z)
    (st : RowState) : RowState :=
  match n with
  | O => st
  | S n' =>
      append_cell n' cell_text rowspan
        (mkRowState (remainder st)
           (texts st ++ [cell_text])
           (if 1 <? rowspan
            then next_remainder st ++ [(index st, cell_text, rowspan - 1)]
            else next_remainder st)
           (index st + 1))
  end.

(** The body of [for td in tds]. *)
Definition expand_td (td : Node) (st : RowState) : pyresult RowState :=
  let st := flush_before (remainder st) (texts st) (next_remainder st) (index st) in
  let cell_text := _remove_whitespace (text_getter td) in
  rowspan <-- span_attr td "rowspan" ;;
  colspan <-- span_attr td "colspan" ;;
  Ok (append_cell (Z.to_nat colspan) cell_text rowspan st).

Fixpoint expand_tds (tds : list Node) (st : RowState) : pyresult RowState :=
  match tds with
  | [] => Ok st
  | td :: tds' => st' <-- expand_td td st ;; expand_tds tds' st'
  end.

(** [for prev_i, prev_text, prev_rowspan in remainder: ...], the loop that
    ends a row and the body of the final [while]. *)
Fixpoint flush_all (rem : list Pending) (txt : DenseRow)
    (next : list Pending) : DenseRow * list Pending :=
  match rem with
  | [] => (txt, next)
  | p :: rem' => flush_all rem' (txt ++ [pending_text p]) (carry_over p next)
  end.

(** The body of [for tr in rows]: the row's texts and the next [remainder]. *)
Definition expand_tr (tr : TrNode) (rem : list Pending)
    : pyresult (DenseRow * list Pending) :=
  st <-- expand_tds (parse_td tr) (mkRowState rem [] [] 0) ;;
  Ok (flush_all (remainder st) (texts st) (next_remainder st)).

(** [for tr in rows], from a given [all_texts] and [remainder]. *)
Fixpoint expand_rows (rows : list TrNode) (all_texts : list DenseRow)
    (rem : list Pending) : pyresult (list DenseRow * list Pending) :=
  match rows with
  | [] => Ok (all_texts, rem)
  | tr :: rows' =>
      r <-- expand_tr tr rem ;;
      expand_rows rows' (all_texts ++ [fst r]) (snd r)
  end.

(** What bounds the final [while]: every pass lowers the weight. *)
Definition pending_weight (rem : list Pending) : nat :=
  list_sum (List.map (fun p => Z.to_nat (Z.max 1 (pending_rowspan p))) rem).

(** [while remainder: ...], the rows that only carried spans fill. *)
Equations? flush_trailing (rem : list Pending) (all_texts : list DenseRow)
    : list DenseRow by wf (pending_weight rem) lt :=
  flush_trailing [] all_texts := all_texts;
  flush_trailing (p :: rem') all_texts :=
    flush_trailing (snd (flush_all (p :: rem') [] []))
                   (all_texts ++ [fst (flush_all (p :: rem') [] [])]).
Proof.
  assert (forall a b : list Pending,
             pending_weight (a ++ b) = (pending_weight a + pending_weight b)%nat)
    as Happ.
  { intros a b. unfold pending_weight.
    rewrite List.map_app, list_sum_app. reflexivity. }
  assert (forall (q : Pending) (next : list Pending),
             (pending_weight (carry_over q next)
              < pending_weight next + pending_weight [q])%nat) as Hcarry.
  { intros [[i t] r] next. unfold carry_over.
    destruct (1 <? r) eqn:E.
    - apply Z.ltb_lt in E. rewrite Happ.
      unfold pending_weight, pending_rowspan. simpl. lia.
    - unfold pending_weight, pending_rowspan. simpl. lia. }
  assert (forall (l : list Pending) (txt : DenseRow) (next : list Pending),
             (pending_weight (snd (flush_all l txt next)) + length l
              <= pending_weight next + pending_weight l)%nat) as Hflush.
  { induction l as [|q l IH]; intros txt next; simpl.
    - lia.
    - specialize (IH (txt ++ [pending_text q]) (carry_over q next)).
      specialize (Hcarry q next).
      change (q :: l) with ([q] ++ l). rewrite Happ. lia. }
  specialize (Hflush (p :: rem') [] []).
  simpl in Hflush. change (pending_weight []) with 0%nat in Hflush. lia.
Qed.

Definition expand_colspan_rowspan (rows : list TrNode) : pyresult (list DenseRow) :=
  r <-- expand_rows rows [] [] ;;
  Ok (flush_trailing (snd r) (fst r)).

(** ** Table assembler *)

(** One table identifier: a [str], an [int], or an object of another
    type, with the text it formats to. *)
Inductive table_id : Type :=
| IdStr (s : string)
| IdInt (i : Z)
| IdOther (shown : string).

(** The argument [table_identifier]: [Many] when
    [agate.utils.issequence] holds of it, which it does not of a [str]. *)
Inductive table_identifier_arg : Type :=
| One (t : table_id)
| Many (ts : list table_id).

(** The arguments [agate.Table] is called with; [column_types] and the
    other keyword arguments are passed through unread and are left out. *)
Record Table : Type := mkTableArgs {
  rows : list DenseRow;
  column_names : list string;
}.

(** [while body_rows and row_is_all_th(body_rows[0]):
       head_rows.append(body_rows.pop(0))] *)
Fixpoint move_header_rows (head_rows body_rows : list TrNode)
    : list TrNode * list TrNode :=
  match body_rows with
  | tr :: body_rows' =>
      if row_is_all_th tr then move_header_rows (head_rows ++ [tr]) body_rows'
      else (head_rows, body_rows)
  | [] => (head_rows, [])
  end.

(** [if row_limit is not None: body_rows = body_rows[0:row_limit]] *)
Definition limit_rows (body_rows : list TrNode) (row_limit : option Z) : list TrNode :=
  match row_limit with
  | Some n => Py.slice_to body_rows n
  | None => body_rows
  end.

(** The row groups of [from_html]: head, body and foot rows as they
    are handed to the expansion. *)
Definition classify_rows (table_html : TableNode) (row_limit : option Z)
    : list TrNode * list TrNode * list TrNode :=
  let head_rows := parse_thead_tr table_html in
  let body_rows := parse_tbody_tr table_html in
  let body_rows := limit_rows body_rows row_limit in
  let foot_rows := parse_tfoot_tr table_html in
  let '(head_rows, body_rows) :=
    match head_rows with
    | [] => move_header_rows head_rows body_rows
    | _ :: _ => (head_rows, body_rows)
    end in
  (head_rows, body_rows, foot_rows).

(** The body of [for i, table_identifier in enumerate(table_identifiers)];
    [tables] is [html_soup.find_all('table')], [column_names_kw] the
    keyword argument [column_names] when it is given. *)
Definition load_table (tables : list TableNode) (header : bool)
    (column_names_kw : option (list string)) (row_limit : option Z)
    (table_identifier : table_id) : pyresult Table :=
  table_html <--
    match table_identifier with
    | IdStr _ => Raise (Exception "Not implemented yet.")
    | IdInt i => Py.index tables i
    | IdOther shown =>
        Raise (Exception (String.append "Could not interpret table identifier " shown))
    end ;;
  let '(head_rows, body_rows, foot_rows) := classify_rows table_html row_limit in
  head <-- expand_colspan_rowspan head_rows ;;
  body <-- expand_colspan_rowspan body_rows ;;
  foot <-- expand_colspan_rowspan foot_rows ;;
  column_names <--
    (if header then Py.index head 0
     else match column_names_kw with
          | Some names => Ok names
          | None => Raise (UnboundLocalError "column_names")
          end) ;;
  Ok (mkTableArgs body column_names).

Definition table_id_eqb (a b : table_id) : bool :=
  match a, b with
  | IdStr s, IdStr s' => String.eqb s s'
  | IdInt i, IdInt i' => i =? i'
  | IdOther s, IdOther s' => String.eqb s s'
  | _, _ => false
  end.

(** [tables[key] = value] on an [OrderedDict]: a key that is already
    there keeps its place. *)
Fixpoint odict_set (d : list (table_id * Table)) (key : table_id) (value : Table)
    : list (table_id * Table) :=
  match d with
  | [] => [(key, value)]
  | (k, v) :: d' =>
      if table_id_eqb k key then (k, value) :: d'
      else (k, v) :: odict_set d' key value
  end.

Fixpoint load_tables (doc : list TableNode) (header : bool)
    (column_names_kw : option (list string)) (row_limit : option Z)
    (table_identifiers : list table_id) (tables : list (table_id * Table))
    : pyresult (list (table_id * Table)) :=
  match table_identifiers with
  | [] => Ok tables
  | table_identifier :: rest =>
      t <-- load_table doc header column_names_kw row_limit table_identifier ;;
      load_tables doc header column_names_kw row_limit rest
                  (odict_set tables table_identifier t)
  end.

(** What [from_html] returns: one table, or the sequence of tables with
    their keys. *)
Inductive loaded : Type :=
| OneTable (t : Table)
| MappedSequence (items : list (table_id * Table)).

(** [from_html], from the parsed document on. *)
Definition from_html (doc : list TableNode) (table_identifier : table_identifier_arg)
    (header : bool) (column_names_kw : option (list string))
    (row_limit : option Z) : pyresult loaded :=
  match table_identifier with
  | Many ids =>
      tables <-- load_tables doc header column_names_kw row_limit ids [] ;;
      Ok (MappedSequence tables)
  | One id =>
      tables <-- load_tables doc header column_names_kw row_limit [id] [] ;;
      match List.last (List.map (fun kv => Some (snd kv)) tables) None with
      | Some t => Ok (OneTable t)
      | None => Raise (KeyError "dictionary is empty")
      end
  end.

(** ** Hidden tables *)

(** [_handle_hidden_tables]; [attr_name] is given as the accessor it
    names, [getattr(x, attr_name)] being the attribute dictionary of [x]. *)
Definition _handle_hidden_tables (tbl_list : list Node)
    (attr_name : Node -> gmap string string) (displayed_only : bool) : list Node :=
  if negb displayed_only then tbl_list
  else
    List.filter
      (fun x =>
         negb (Py.contains "display:none"
                 (Py.remove_spaces (default ""%string (attr_name x !! "style")))))
      tbl_list.

(** ** Spreadsheet cells *)

(** The cell values [normalize_booleans] is modelled on: [None], a
    [bool], an [int] or a [str]. *)
Inductive pyval : Type :=
| VNone
| VBool (b : bool)
| VInt (n : Z)
| VStr (s : string).

(** [bool(value)] *)
Definition truth (value : pyval) : bool :=
  match value with
  | VNone => false
  | VBool b => b
  | VInt n => negb (n =? 0)
  | VStr s => negb (String.eqb s "")
  end.

(** [value is None or value == ''] *)
Definition none_or_empty (value : pyval) : bool :=
  match value with
  | VNone => true
  | VStr s => String.eqb s ""
  | VBool _ | VInt _ => false
  end.

(** [for value in values: ...], from a given [normalized]. *)
Fixpoint normalize_booleans_from (values : list pyval) (normalized : list (option bool))
    : list (option bool) :=
  match values with
  | [] => normalized
  | value :: values' =>
      normalize_booleans_from values'
        (if none_or_empty value then normalized ++ [None]
         else normalized ++ [Some (truth value)])
  end.

Definition normalize_booleans (values : list pyval) : list (option bool) :=
  normalize_booleans_from values [].


Section Excel.

(** The cell type constants of [xlrd.biffh] the function reads; the module
    does not define them. *)
Variables XL_CELL_EMPTY XL_CELL_TEXT XL_CELL_ERROR : Z.


End Excel.

(** * Statements *)

(** The text a cell contributes: [_remove_whitespace(text_getter(td))]. *)
Definition cell_text (td : Node) : string := _remove_whitespace (text_getter td).
Arguments cell_text : simpl never.

(** The cell's [rowspan] and [colspan] are read as [r] and [c]. *)
Definition spans (td : Node) (r c : Z) : Prop :=
  span_attr td "rowspan" = Ok r /\ span_attr td "colspan" = Ok c.

(** Every cell of the row has rowspan 1 and colspan 1. *)
Definition unit_row (tr : TrNode) : Prop :=
  Forall (fun td => spans td 1 1) (parse_td tr).

(** Sample cells and rows. *)
Module Sample.
Definition td (s : string) : Node := mkNode "td" ∅ s.
Definition th (s : string) : Node := mkNode "th" ∅ s.
Definition td_rowspan (s r : string) : Node := mkNode "td" {[ "rowspan" := r ]} s.
Definition td_colspan (s c : string) : Node := mkNode "td" {[ "colspan" := c ]} s.
Definition tr (cells : list Node) : TrNode := mkTr cells.
End Sample.

(** A queue entry that still has at least one row to fill. *)
Definition live (p : Pending) : Prop := 1 <= pending_rowspan p.

(** The queue the final [while] leaves for its next pass. *)
Definition next_queue (rem : list Pending) : list Pending :=
  snd (flush_all rem [] []).

(** The entries with more than one row left, each with one row less. *)
Definition survivors (rem : list Pending) : list Pending :=
  List.map (fun p => (fst p, pending_rowspan p - 1))
           (List.filter (fun p => 1 <? pending_rowspan p) rem).

(** The queue after [n] passes of the final [while]. *)
Fixpoint queue_after (n : nat) (rem : list Pending) : list Pending :=
  match n with
  | O => rem
  | S n' => queue_after n' (survivors rem)
  end.

(** The rows [n] passes of the final [while] append: the texts of the
    successive queues. *)
Fixpoint trailing_rows (n : nat) (rem : list Pending) : list DenseRow :=
  match n with
  | O => []
  | S n' => List.map pending_text rem :: trailing_rows n' (survivors rem)
  end.

Definition max_rowspan (rem : list Pending) : Z :=
  fold_right Z.max 0 (List.map pending_rowspan rem).

(** The number of passes of the final [while] on a queue of live entries. *)
Definition trailing_passes (rem : list Pending) : nat := Z.to_nat (max_rowspan rem).

(** A table without [thead]: a header row, then two data rows. *)
Definition implicit_header_table : TableNode :=
  mkTable []
          [Sample.tr [Sample.th "Name"; Sample.th "Age"];
           Sample.tr [Sample.td "Ada"; Sample.td "36"];
           Sample.tr [Sample.td "Alan"; Sample.td "41"]]
          [] [].

(** A table without [thead] that starts with two rows without cells. *)
Definition empty_rows_table : TableNode :=
  mkTable []
          []
          [Sample.tr []; Sample.tr [];
           Sample.tr [Sample.th "Name"];
           Sample.tr [Sample.td "Ada"]]
          [].

(** The claim on [row_limit=2], as the specification words it: on a body
    of five rows the table built has exactly two rows. *)
Definition row_limit_claim : Prop :=
  forall (tables : list TableNode) (header : bool)
         (column_names_kw : option (list string)) (i : Z)
         (table_html : TableNode) (t : Table),
    Py.index tables i = Ok table_html ->
    length (parse_tbody_tr table_html) = 5%nat ->
    from_html tables (One (IdInt i)) header column_names_kw (Some 2) = Ok (OneTable t) ->
    length (rows t) = 2%nat.

(** A table with a [thead] and five body rows; the first body cell spans
    three rows. *)
Definition spanning_table : TableNode :=
  mkTable [Sample.tr [Sample.th "Quarter"; Sample.th "Month"]]
          [Sample.tr [Sample.td_rowspan "Q1" "3"; Sample.td "Jan"];
           Sample.tr [Sample.td "Feb"];
           Sample.tr [Sample.td "Mar"];
           Sample.tr [Sample.td "Q2"; Sample.td "Apr"];
           Sample.tr [Sample.td "Q2"; Sample.td "May"]]
          [] [].

(** The span as the specification words it: the attribute parsed as an
    integer, 1 when it is absent or does not parse, 1 also for a value of
    0 or less. *)
Definition clamped_span (v : option string) : Z :=
  match v with
  | None => 1
  | Some s =>
      match Py.int s with
      | Some n => if n <=? 0 then 1 else n
      | None => 1
      end
  end.

(** The claim on the span values, as the specification words it: a cell
    is expanded with the clamped spans of its attributes. *)
Definition span_default_claim : Prop :=
  forall (td : Node) (st : RowState),
    expand_td td st =
    Ok (append_cell (Z.to_nat (clamped_span (attr_getter td "colspan")))
          (cell_text td)
          (clamped_span (attr_getter td "rowspan"))
          (flush_before (remainder st) (texts st) (next_remainder st) (index st))).

(** The number of texts a cell adds to its row: its colspan, none when
    the colspan is 0 or less. *)
Definition colspan_of (td : Node) : nat :=
  match span_attr td "colspan" with
  | Ok c => Z.to_nat c
  | Raise _ => O
  end.

(** Both span attributes of the cell are read without error. *)
Definition parses (td : Node) : Prop := exists r c : Z, spans td r c.

(** No line break, and no whitespace character followed by another. *)
Fixpoint single_spaced (l : list ascii) : bool :=
  match l with
  | [] => true
  | c :: l' =>
      negb (is_newline c)
      && negb (Py.isspace c && match l' with
                               | d :: _ => Py.isspace d
                               | [] => false
                               end)
      && single_spaced l'
  end.

(** The span attributes of all cells of the row are read without error. *)
Definition row_parses (tr : TrNode) : Prop := Forall parses (parse_td tr).

(** A document of two tables of one row each. *)
Definition two_tables : list TableNode :=
  [mkTable [Sample.tr [Sample.th "City"]] [Sample.tr [Sample.td "Oslo"]] [] [];
   mkTable [Sample.tr [Sample.th "Year"]] [Sample.tr [Sample.td "1999"]] [] []].

(** The texts of a row that starts from an empty queue: the text of each
    cell, once per column it spans. *)
Definition first_row_texts (tr : TrNode) : DenseRow :=
  flat_map (fun td => repeat (cell_text td) (colspan_of td)) (parse_td tr).

(** What [normalize_booleans] gives for one value. *)
Definition normalized_boolean (value : pyval) : option bool :=
  if none_or_empty value then None else Some (truth value).

(** A normalised value, as a value again. *)
Definition value_of_boolean (b : option bool) : pyval :=
  match b with
  | None => VNone
  | Some b => VBool b
  end.

(** * Properties *)

Section Engine.

Lemma flush_trailing_nil (all_texts : list DenseRow) :
  flush_trailing [] all_texts = all_texts.
Proof. now simp flush_trailing. Qed.

Lemma append_cell_short (n : nat) (t : string) (r : Z) (st : RowState) :
  r <= 1 ->
  append_cell n t r st =
  mkRowState (remainder st) (texts st ++ repeat t n) (next_remainder st)
             (index st + Z.of_nat n).
Proof.
  intros Hr. revert st. induction n as [|n IH]; intros [rem txt next idx].
  - cbn [append_cell repeat remainder texts next_remainder index].
    rewrite app_nil_r, Z.add_0_r. reflexivity.
  - cbn [append_cell]. rewrite IH. cbn [remainder texts next_remainder index repeat].
    assert ((1 <? r) = false) as -> by (apply Z.ltb_ge; lia).
    rewrite <- app_assoc. cbn [app]. f_equal. lia.
Qed.

Lemma expand_td_spans (td : Node) (st : RowState) (r c : Z) :
  spans td r c ->
  expand_td td st =
  Ok (append_cell (Z.to_nat c) (cell_text td) r
        (flush_before (remainder st) (texts st) (next_remainder st) (index st))).
Proof. intros [Hr Hc]. unfold expand_td. rewrite Hr, Hc. reflexivity. Qed.

Lemma expand_tds_app (a b : list Node) (st : RowState) :
  expand_tds (a ++ b) st = (st' <-- expand_tds a st ;; expand_tds b st').
Proof.
  revert st. induction a as [|td a IH]; intros st; cbn [expand_tds app bind].
  - reflexivity.
  - destruct (expand_td td st) as [st'|e]; cbn [bind]; [apply IH | reflexivity].
Qed.

(** Cells without spans, met with an empty [remainder], are copied. *)
Lemma expand_tds_unit (tds : list Node) (txt : DenseRow) (next : list Pending) (idx : Z) :
  Forall (fun td => spans td 1 1) tds ->
  expand_tds tds (mkRowState [] txt next idx) =
  Ok (mkRowState [] (txt ++ List.map cell_text tds) next (idx + Z.of_nat (length tds))).
Proof.
  intros H. revert txt idx. induction H as [|td tds Htd _ IH]; intros txt idx.
  - cbn. rewrite app_nil_r, Z.add_0_r. reflexivity.
  - cbn [expand_tds]. rewrite (expand_td_spans _ _ _ _ Htd).
    cbn [bind remainder texts next_remainder index flush_before].
    rewrite append_cell_short by lia.
    cbn [remainder texts next_remainder index Z.to_nat Pos.to_nat Pos.iter_op repeat].
    rewrite IH. cbn [List.map length]. rewrite <- app_assoc. cbn [app].
    do 2 f_equal. lia.
Qed.

Lemma expand_tr_unit (tr : TrNode) :
  unit_row tr -> expand_tr tr [] = Ok (List.map cell_text (parse_td tr), []).
Proof.
  intros H. unfold expand_tr. rewrite (expand_tds_unit _ _ _ _ H). reflexivity.
Qed.

Lemma expand_rows_unit (rws : list TrNode) (all_texts : list DenseRow) :
  Forall unit_row rws ->
  expand_rows rws all_texts [] =
  Ok (all_texts ++ List.map (fun tr => List.map cell_text (parse_td tr)) rws, []).
Proof.
  intros H. revert all_texts. induction H as [|tr rws Htr _ IH]; intros all_texts.
  - cbn. rewrite app_nil_r. reflexivity.
  - cbn [expand_rows]. rewrite (expand_tr_unit _ Htr). cbn [bind fst snd].
    rewrite IH. rewrite <- app_assoc. reflexivity.
Qed.

End Engine.

(** C1. When every cell of every row has rowspan 1 and colspan 1 (as it
    has without span attributes), [expand_colspan_rowspan] returns one row
    of texts per input row: the normalised texts of that row's cells, in
    source order. *)
Theorem expand_identity (rws : list TrNode) :
  Forall unit_row rws ->
  expand_colspan_rowspan rws =
  Ok (List.map (fun tr => List.map cell_text (parse_td tr)) rws).
Proof.
  intros H. unfold expand_colspan_rowspan.
  rewrite (expand_rows_unit _ [] H). cbn [bind fst snd app].
  apply f_equal, flush_trailing_nil.
Qed.

Lemma no_attrs_spans (nm txt : string) : spans (mkNode nm ∅ txt) 1 1.
Proof. split; reflexivity. Qed.

Lemma expand_identity_witness :
  expand_colspan_rowspan
    [Sample.tr [Sample.th " Name "; Sample.th "Age"];
     Sample.tr [Sample.td "Ada"; Sample.td "36"]]
  = Ok [["Name"; "Age"]; ["Ada"; "36"]].
Proof.
  apply (expand_identity
           [Sample.tr [Sample.th " Name "; Sample.th "Age"];
            Sample.tr [Sample.td "Ada"; Sample.td "36"]]).
  repeat constructor.
Defined.

(** C2. In a two-row input whose first cell of row 1 has rowspan 2, all
    other spans being 1, the second row produced starts with that cell's
    text (index 0) and goes on with the texts of row 2's own cells, in
    source order. *)
Theorem rowspan_two_rows (r1 r2 : TrNode) (c1 : Node) (others : list Node) :
  parse_td r1 = c1 :: others ->
  spans c1 2 1 ->
  Forall (fun td => spans td 1 1) others ->
  unit_row r2 ->
  expand_colspan_rowspan [r1; r2] =
  Ok [List.map cell_text (parse_td r1);
      cell_text c1 :: List.map cell_text (parse_td r2)].
Proof.
  intros Hr1 Hc1 Hothers Hr2.
  assert (expand_tr r1 [] =
          Ok (List.map cell_text (parse_td r1), [(0, cell_text c1, 1)])) as E1.
  { unfold expand_tr. rewrite Hr1. cbn [expand_tds].
    rewrite (expand_td_spans _ _ _ _ Hc1).
    cbn. change (Z.to_nat 1) with 1%nat. cbn.
    rewrite (expand_tds_unit _ _ _ _ Hothers). reflexivity. }
  assert (expand_tr r2 [(0, cell_text c1, 1)] =
          Ok (cell_text c1 :: List.map cell_text (parse_td r2), [])) as E2.
  { unfold expand_tr. red in Hr2.
    destruct (parse_td r2) as [|d ds] eqn:Etds.
    - reflexivity.
    - inversion Hr2 as [|? ? Hd Hds]; subst.
      cbn [expand_tds]. rewrite (expand_td_spans _ _ _ _ Hd).
      cbn. change (Z.to_nat 1) with 1%nat. cbn.
      rewrite (expand_tds_unit _ _ _ _ Hds). reflexivity. }
  unfold expand_colspan_rowspan. cbn [expand_rows].
  rewrite E1. cbn [bind fst snd app]. rewrite E2. cbn [bind fst snd app].
  rewrite flush_trailing_nil. reflexivity.
Qed.

Lemma rowspan_two_rows_witness :
  expand_colspan_rowspan
    [Sample.tr [Sample.td_rowspan "Q1" "2"; Sample.td "Jan"];
     Sample.tr [Sample.td "Feb"; Sample.td "7"]]
  = Ok [["Q1"; "Jan"]; ["Q1"; "Feb"; "7"]].
Proof.
  apply (rowspan_two_rows
           (Sample.tr [Sample.td_rowspan "Q1" "2"; Sample.td "Jan"])
           (Sample.tr [Sample.td "Feb"; Sample.td "7"])
           (Sample.td_rowspan "Q1" "2") [Sample.td "Jan"]).
  - reflexivity.
  - split; reflexivity.
  - repeat constructor.
  - repeat constructor.
Defined.

(** C3. In a single-row input where one cell has colspan 3, all other
    spans being 1, the row produced holds that cell's text at the three
    consecutive positions that start at the cell's column index, between
    the texts of the cells before and after it; these are the only copies
    the cell adds. *)
Theorem colspan_three (tr : TrNode) (pre post : list Node) (c : Node) :
  parse_td tr = pre ++ c :: post ->
  spans c 1 3 ->
  Forall (fun td => spans td 1 1) pre ->
  Forall (fun td => spans td 1 1) post ->
  exists d : DenseRow,
    expand_colspan_rowspan [tr] = Ok [d] /\
    d = List.map cell_text pre ++ repeat (cell_text c) 3 ++ List.map cell_text post /\
    (forall k : nat, (k < 3)%nat -> nth_error d (length pre + k) = Some (cell_text c)) /\
    count_occ string_dec d (cell_text c) =
    (3 + count_occ string_dec (List.map cell_text (pre ++ post)) (cell_text c))%nat.
Proof.
  intros Htr Hc Hpre Hpost.
  exists (List.map cell_text pre ++ repeat (cell_text c) 3 ++ List.map cell_text post).
  split; [|split; [reflexivity|split]].
  - unfold expand_colspan_rowspan, expand_rows, expand_tr.
    rewrite Htr, expand_tds_app, (expand_tds_unit _ _ _ _ Hpre).
    cbn [bind expand_tds app]. rewrite (expand_td_spans _ _ _ _ Hc).
    cbn [bind remainder texts next_remainder index flush_before].
    rewrite append_cell_short by lia.
    cbn [remainder texts next_remainder index].
    rewrite (expand_tds_unit _ _ _ _ Hpost).
    cbn [bind remainder texts next_remainder flush_all fst snd app].
    rewrite flush_trailing_nil, <- app_assoc. reflexivity.
  - intros k Hk.
    rewrite nth_error_app2 by (rewrite length_map; lia).
    rewrite length_map.
    replace (length pre + k - length pre)%nat with k by lia.
    destruct k as [|[|[|k]]]; [reflexivity..|lia].
  - rewrite List.map_app, !count_occ_app.
    cbn [repeat count_occ]. destruct (string_dec (cell_text c) (cell_text c)); [lia|congruence].
Qed.

Lemma colspan_three_witness :
  exists d : DenseRow,
    expand_colspan_rowspan
      [Sample.tr [Sample.td "a"; Sample.td_colspan "wide" "3"; Sample.td "z"]] = Ok [d] /\
    d = ["a"; "wide"; "wide"; "wide"; "z"] /\
    (forall k : nat, (k < 3)%nat -> nth_error d (1 + k) = Some "wide") /\
    count_occ string_dec d "wide" = 3%nat.
Proof.
  destruct (colspan_three
              (Sample.tr [Sample.td "a"; Sample.td_colspan "wide" "3"; Sample.td "z"])
              [Sample.td "a"] [Sample.td "z"] (Sample.td_colspan "wide" "3"))
    as (d & E & Hd & Hpos & Hcount).
  - reflexivity.
  - split; reflexivity.
  - repeat constructor.
  - repeat constructor.
  - exists d. repeat split; [exact E | exact Hd | exact Hpos | exact Hcount].
Defined.

(** ** The pending queue *)

Section Queue.

Lemma carry_over_live (p : Pending) (next : list Pending) :
  Forall live next -> Forall live (carry_over p next).
Proof.
  intros H. destruct p as [[i t] r]. unfold carry_over.
  destruct (1 <? r) eqn:E; [|exact H].
  apply Z.ltb_lt in E. apply Forall_app. split; [exact H|].
  constructor; [|constructor]. unfold live, pending_rowspan. cbn. lia.
Qed.

Lemma carry_over_survivors (p : Pending) (next : list Pending) :
  carry_over p next = next ++ survivors [p].
Proof.
  destruct p as [[i t] r]. unfold carry_over, survivors, pending_rowspan.
  cbn. destruct (1 <? r); cbn; [reflexivity | now rewrite app_nil_r].
Qed.

Lemma survivors_cons (p : Pending) (rem : list Pending) :
  survivors (p :: rem) = survivors [p] ++ survivors rem.
Proof.
  unfold survivors. cbn. destruct (1 <? pending_rowspan p); reflexivity.
Qed.

Lemma flush_before_live (rem : list Pending) (txt : DenseRow)
    (next : list Pending) (idx : Z) :
  Forall live next -> Forall live (next_remainder (flush_before rem txt next idx)).
Proof.
  revert txt next idx. induction rem as [|p rem IH]; intros txt next idx H; cbn.
  - exact H.
  - destruct (fst (fst p) <=? idx); [|exact H].
    apply IH, carry_over_live, H.
Qed.

Lemma append_cell_live (n : nat) (t : string) (r : Z) (st : RowState) :
  Forall live (next_remainder st) ->
  Forall live (next_remainder (append_cell n t r st)).
Proof.
  revert st. induction n as [|n IH]; intros st H; cbn; [exact H|].
  apply IH. cbn. destruct (1 <? r) eqn:E; [|exact H].
  apply Z.ltb_lt in E. apply Forall_app. split; [exact H|].
  constructor; [|constructor]. unfold live, pending_rowspan. cbn. lia.
Qed.

Lemma expand_td_live (td : Node) (st st' : RowState) :
  expand_td td st = Ok st' ->
  Forall live (next_remainder st) -> Forall live (next_remainder st').
Proof.
  unfold expand_td. intros E H.
  destruct (span_attr td "rowspan") as [r|]; [|discriminate].
  destruct (span_attr td "colspan") as [c|]; [|discriminate].
  cbn in E. injection E as <-.
  apply append_cell_live, flush_before_live, H.
Qed.

Lemma expand_tds_live (tds : list Node) (st st' : RowState) :
  expand_tds tds st = Ok st' ->
  Forall live (next_remainder st) -> Forall live (next_remainder st').
Proof.
  revert st. induction tds as [|td tds IH]; intros st E H; cbn in E.
  - injection E as <-. exact H.
  - destruct (expand_td td st) as [st1|] eqn:E1; [|discriminate].
    cbn in E. eapply IH; [exact E|]. eapply expand_td_live; eassumption.
Qed.

Lemma flush_all_spec (rem : list Pending) (txt : DenseRow) (next : list Pending) :
  flush_all rem txt next = (txt ++ List.map pending_text rem, next ++ survivors rem).
Proof.
  revert txt next. induction rem as [|p rem IH]; intros txt next; cbn [flush_all].
  - cbn. now rewrite !app_nil_r.
  - rewrite IH, carry_over_survivors, (survivors_cons p rem), <- !app_assoc.
    reflexivity.
Qed.

Lemma next_queue_survivors (rem : list Pending) : next_queue rem = survivors rem.
Proof. unfold next_queue. now rewrite flush_all_spec. Qed.

Lemma survivors_live (rem : list Pending) : Forall live (survivors rem).
Proof.
  induction rem as [|p rem IH]; [constructor|].
  rewrite survivors_cons. apply Forall_app. split; [|exact IH].
  unfold survivors. cbn. destruct (1 <? pending_rowspan p) eqn:E; [|constructor].
  apply Z.ltb_lt in E. constructor; [|constructor].
  unfold live, pending_rowspan in *. cbn. lia.
Qed.

Lemma flush_all_live (rem : list Pending) (txt : DenseRow) (next : list Pending) :
  Forall live next -> Forall live (snd (flush_all rem txt next)).
Proof.
  intros H. rewrite flush_all_spec. cbn. apply Forall_app.
  split; [exact H | apply survivors_live].
Qed.

(** Whatever queue a row starts from, the queue it leaves is live. *)
Lemma expand_tr_live (tr : TrNode) (rem : list Pending) (r : DenseRow * list Pending) :
  expand_tr tr rem = Ok r -> Forall live (snd r).
Proof.
  unfold expand_tr. intros E.
  destruct (expand_tds (parse_td tr) (mkRowState rem [] [] 0)) as [st|] eqn:E1;
    [|discriminate].
  cbn in E. injection E as <-. apply flush_all_live.
  eapply expand_tds_live; [exact E1|]. constructor.
Qed.

Lemma expand_rows_live (rws : list TrNode) (all_texts all_texts' : list DenseRow)
    (rem rem' : list Pending) :
  expand_rows rws all_texts rem = Ok (all_texts', rem') ->
  Forall live rem -> Forall live rem'.
Proof.
  revert all_texts rem. induction rws as [|tr rws IH]; intros all_texts rem E H; cbn in E.
  - injection E as _ <-. exact H.
  - destruct (expand_tr tr rem) as [r|] eqn:E1; [|discriminate].
    cbn in E. eapply IH; [exact E|]. eapply expand_tr_live, E1.
Qed.

Lemma expand_rows_length (rws : list TrNode) (all_texts all_texts' : list DenseRow)
    (rem rem' : list Pending) :
  expand_rows rws all_texts rem = Ok (all_texts', rem') ->
  length all_texts' = (length all_texts + length rws)%nat.
Proof.
  revert all_texts rem. induction rws as [|tr rws IH]; intros all_texts rem E; cbn in E.
  - injection E as <- _. cbn. lia.
  - destruct (expand_tr tr rem) as [r|] eqn:E1; [|discriminate].
    cbn in E. apply IH in E. rewrite E, length_app. cbn. lia.
Qed.

(** The rows are processed one after the other: the queue a row starts
    from is the queue the rows before it leave. *)
Lemma expand_rows_app (a b : list TrNode) (all_texts : list DenseRow) (rem : list Pending) :
  expand_rows (a ++ b) all_texts rem =
  (r <-- expand_rows a all_texts rem ;; expand_rows b (fst r) (snd r)).
Proof.
  revert all_texts rem. induction a as [|tr a IH]; intros all_texts rem; cbn.
  - reflexivity.
  - destruct (expand_tr tr rem) as [r|]; cbn; [apply IH | reflexivity].
Qed.

Lemma max_rowspan_nonneg (rem : list Pending) : 0 <= max_rowspan rem.
Proof. unfold max_rowspan. induction rem as [|p rem IH]; cbn; lia. Qed.

Lemma max_rowspan_survivors (rem : list Pending) :
  Forall live rem -> max_rowspan (survivors rem) = Z.max 0 (max_rowspan rem - 1).
Proof.
  induction 1 as [|p rem Hp _ IH]; [reflexivity|].
  rewrite survivors_cons. pose proof (max_rowspan_nonneg rem) as Hn.
  unfold survivors at 1. unfold live in Hp. cbn [List.filter List.map app].
  destruct (1 <? pending_rowspan p) eqn:E.
  - apply Z.ltb_lt in E. unfold max_rowspan in *. cbn in *. lia.
  - apply Z.ltb_ge in E. unfold max_rowspan in *. cbn in *. lia.
Qed.

Lemma trailing_passes_zero (rem : list Pending) :
  Forall live rem -> trailing_passes rem = 0%nat -> rem = [].
Proof.
  intros H E. destruct H as [|p rem Hp _]; [reflexivity|].
  pose proof (max_rowspan_nonneg rem). unfold trailing_passes, max_rowspan, live in *.
  cbn in *. lia.
Qed.

Lemma trailing_passes_survivors (rem : list Pending) :
  Forall live rem -> trailing_passes (survivors rem) = pred (trailing_passes rem).
Proof.
  intros H. unfold trailing_passes. rewrite (max_rowspan_survivors _ H).
  pose proof (max_rowspan_nonneg rem). lia.
Qed.

Lemma flush_trailing_cons (p : Pending) (rem : list Pending) (all_texts : list DenseRow) :
  flush_trailing (p :: rem) all_texts =
  flush_trailing (survivors (p :: rem)) (all_texts ++ [List.map pending_text (p :: rem)]).
Proof. simp flush_trailing. rewrite flush_all_spec. reflexivity. Qed.

(** The final [while] runs [trailing_passes rem] times on a live queue. *)
Lemma flush_trailing_spec (n : nat) (rem : list Pending) (all_texts : list DenseRow) :
  Forall live rem -> trailing_passes rem = n ->
  flush_trailing rem all_texts = all_texts ++ trailing_rows n rem /\
  queue_after n rem = [] /\
  (forall k : nat, (k < n)%nat -> queue_after k rem <> []).
Proof.
  revert rem all_texts. induction n as [|n IH]; intros rem all_texts H E.
  - rewrite (trailing_passes_zero _ H E), flush_trailing_nil. cbn.
    rewrite app_nil_r. repeat split. intros k Hk. lia.
  - destruct rem as [|p rem]; [discriminate|].
    destruct (IH (survivors (p :: rem)) (all_texts ++ [List.map pending_text (p :: rem)]))
      as (E1 & E2 & E3).
    + apply survivors_live.
    + rewrite (trailing_passes_survivors _ H), E. reflexivity.
    + rewrite flush_trailing_cons, E1, <- app_assoc. repeat split.
      * exact E2.
      * intros [|k] Hk; [discriminate|]. cbn [queue_after]. apply E3. lia.
Qed.

End Queue.

Lemma trailing_rows_length (n : nat) (rem : list Pending) :
  length (trailing_rows n rem) = n.
Proof. revert rem. induction n as [|n IH]; intros rem; cbn; [|rewrite IH]; reflexivity. Qed.

(** C4. [expand_colspan_rowspan] ends on every input. When the row loop
    raises, so does the call; otherwise it returns the one row of texts
    per input row followed by the rows of the final loop: as long as the
    queue is not empty, a row of the queue's texts in queue order, after
    which the entries with one row left are dropped and the others lose
    one row.  The loop stops, with an empty queue, after as many passes as
    the largest number of rows an entry has left. *)
Theorem trailing_rows_flushed (rws : list TrNode) :
  match expand_rows rws [] [] with
  | Raise e => expand_colspan_rowspan rws = Raise e
  | Ok (all_texts, rem) =>
      length all_texts = length rws /\
      expand_colspan_rowspan rws =
        Ok (all_texts ++ trailing_rows (trailing_passes rem) rem) /\
      queue_after (trailing_passes rem) rem = [] /\
      (forall k : nat, (k < trailing_passes rem)%nat -> queue_after k rem <> [])
  end.
Proof.
  unfold expand_colspan_rowspan.
  destruct (expand_rows rws [] []) as [[all_texts rem]|e] eqn:E; [|reflexivity].
  cbn [bind fst snd].
  assert (Forall live rem) as Hlive
      by (eapply expand_rows_live; [exact E | constructor]).
  destruct (flush_trailing_spec _ rem all_texts Hlive eq_refl) as (E1 & E2 & E3).
  split; [|split; [|split]].
  - apply expand_rows_length in E. exact E.
  - now rewrite E1.
  - exact E2.
  - exact E3.
Qed.

Lemma trailing_rows_flushed_witness :
  expand_colspan_rowspan
    [Sample.tr [Sample.td_rowspan "Q1" "3"; Sample.td_rowspan "Jan" "2"]]
  = Ok [["Q1"; "Jan"]; ["Q1"; "Jan"]; ["Q1"]].
Proof.
  pose proof (trailing_rows_flushed
                [Sample.tr [Sample.td_rowspan "Q1" "3"; Sample.td_rowspan "Jan" "2"]])
    as H.
  change (expand_rows
            [Sample.tr [Sample.td_rowspan "Q1" "3"; Sample.td_rowspan "Jan" "2"]] [] [])
    with (@Ok (list DenseRow * list Pending)
              ([["Q1"; "Jan"]], [(0, "Q1", 2); (1, "Jan", 1)])) in H.
  exact (proj1 (proj2 H)).
Defined.

(** C8. An entry with one row left is not queued again, so the queue a
    row starts from (the queue the first [k] rows leave) holds only
    entries with at least one row left, and so does the queue at every
    pass of the final loop. *)
Theorem pending_rowspan_positive (rws : list TrNode) (k : nat)
    (all_texts : list DenseRow) (rem : list Pending) :
  expand_rows (firstn k rws) [] [] = Ok (all_texts, rem) ->
  (forall (p : Pending) (next : list Pending),
     pending_rowspan p - 1 = 0 -> carry_over p next = next) /\
  Forall (fun p => 1 <= pending_rowspan p) rem /\
  (forall n : nat,
     Forall (fun p => 1 <= pending_rowspan p) (Nat.iter n next_queue rem)).
Proof.
  intros E.
  assert (Forall live rem) as Hlive
      by (eapply expand_rows_live; [exact E | constructor]).
  split; [|split].
  - intros [[i t] r] next Hr. unfold pending_rowspan in Hr. cbn in Hr.
    unfold carry_over. assert ((1 <? r) = false) as -> by (apply Z.ltb_ge; lia).
    reflexivity.
  - exact Hlive.
  - intros [|n]; [exact Hlive|].
    change (Nat.iter (S n) next_queue rem)
      with (next_queue (Nat.iter n next_queue rem)).
    rewrite next_queue_survivors. apply survivors_live.
Qed.

Lemma pending_rowspan_positive_witness :
  expand_rows
    (firstn 1 [Sample.tr [Sample.td_rowspan "Q1" "3"; Sample.td "Jan"];
               Sample.tr [Sample.td "Feb"]]) [] []
  = Ok ([["Q1"; "Jan"]], [(0, "Q1", 2)]) /\
  Forall (fun p => 1 <= pending_rowspan p) [(0, "Q1", 2)].
Proof.
  split; [reflexivity|].
  apply (pending_rowspan_positive
           [Sample.tr [Sample.td_rowspan "Q1" "3"; Sample.td "Jan"];
            Sample.tr [Sample.td "Feb"]]
           1 [["Q1"; "Jan"]] [(0, "Q1", 2)]).
  reflexivity.
Defined.

(** ** The table assembler *)

Section Assembler.

Lemma from_html_one (doc : list TableNode) (id : table_id) (header : bool)
    (column_names_kw : option (list string)) (row_limit : option Z) :
  from_html doc (One id) header column_names_kw row_limit =
  (t <-- load_table doc header column_names_kw row_limit id ;; Ok (OneTable t)).
Proof.
  unfold from_html. cbn [load_tables].
  destruct (load_table doc header column_names_kw row_limit id); reflexivity.
Qed.

(** The body rows of the table built are the expansion of the body group. *)
Lemma load_table_rows (tables : list TableNode) (header : bool)
    (column_names_kw : option (list string)) (row_limit : option Z) (i : Z)
    (table_html : TableNode) (t : Table) :
  Py.index tables i = Ok table_html ->
  load_table tables header column_names_kw row_limit (IdInt i) = Ok t ->
  expand_colspan_rowspan (snd (fst (classify_rows table_html row_limit))) = Ok (rows t).
Proof.
  intros Hi E. unfold load_table in E. rewrite Hi in E. cbn [bind] in E.
  destruct (classify_rows table_html row_limit) as [[head_rows body_rows] foot_rows].
  cbn [fst snd].
  destruct (expand_colspan_rowspan head_rows) as [head|]; [|discriminate].
  destruct (expand_colspan_rowspan body_rows) as [body|]; [|discriminate].
  destruct (expand_colspan_rowspan foot_rows) as [foot|]; [|discriminate].
  cbn [bind] in E.
  destruct (if header then Py.index head 0 else _) as [names|]; [|discriminate].
  cbn [bind] in E. injection E as <-. reflexivity.
Qed.

(** The rows the fallback moves are the leading all-[th] rows. *)
Lemma move_header_rows_spec (head_rows body_rows : list TrNode) :
  exists moved kept : list TrNode,
    body_rows = moved ++ kept /\
    Forall (fun tr => row_is_all_th tr = true) moved /\
    (kept = [] \/ exists tr kept', kept = tr :: kept' /\ row_is_all_th tr = false) /\
    move_header_rows head_rows body_rows = (head_rows ++ moved, kept).
Proof.
  revert head_rows. induction body_rows as [|tr body_rows IH]; intros head_rows.
  - exists [], []. cbn. rewrite app_nil_r. repeat split; [constructor | now left].
  - cbn [move_header_rows]. destruct (row_is_all_th tr) eqn:E.
    + destruct (IH (head_rows ++ [tr])) as (moved & kept & -> & Hall & Hkept & ->).
      exists (tr :: moved), kept. rewrite <- app_assoc.
      repeat split; [constructor; assumption | exact Hkept].
    + exists [], (tr :: body_rows). rewrite app_nil_r.
      repeat split; [constructor | right; eauto].
Qed.

Lemma move_header_rows_prefix (head_rows body_rows : list TrNode) :
  move_header_rows head_rows body_rows =
  (head_rows ++ fst (move_header_rows [] body_rows),
   snd (move_header_rows [] body_rows)).
Proof.
  revert head_rows. induction body_rows as [|tr body_rows IH]; intros head_rows.
  - cbn. now rewrite app_nil_r.
  - cbn [move_header_rows]. destruct (row_is_all_th tr).
    + rewrite (IH (head_rows ++ [tr])), (IH ([] ++ [tr])), <- app_assoc. reflexivity.
    + cbn. now rewrite app_nil_r.
Qed.

Lemma classify_rows_explicit_head (table_html : TableNode) (row_limit : option Z) :
  parse_thead_tr table_html <> [] ->
  classify_rows table_html row_limit =
  (parse_thead_tr table_html,
   limit_rows (parse_tbody_tr table_html) row_limit,
   parse_tfoot_tr table_html).
Proof.
  intros H. unfold classify_rows.
  destruct (parse_thead_tr table_html); [congruence | reflexivity].
Qed.

Lemma classify_rows_no_head (table_html : TableNode) (row_limit : option Z) :
  parse_thead_tr table_html = [] ->
  classify_rows table_html row_limit =
  (fst (move_header_rows [] (limit_rows (parse_tbody_tr table_html) row_limit)),
   snd (move_header_rows [] (limit_rows (parse_tbody_tr table_html) row_limit)),
   parse_tfoot_tr table_html).
Proof.
  intros H. unfold classify_rows. rewrite H.
  destruct (move_header_rows _ _); reflexivity.
Qed.

Lemma empty_row_is_all_th (tr : TrNode) : parse_td tr = [] -> row_is_all_th tr = true.
Proof. intros H. unfold row_is_all_th. rewrite H. reflexivity. Qed.

End Assembler.

(** C9. With a string as table identifier, [from_html] raises the "not
    implemented" exception: there is no table and no other result.  The
    same holds when the string is met first in a sequence of identifiers. *)
Theorem string_identifier_not_implemented (doc : list TableNode) (s : string)
    (header : bool) (column_names_kw : option (list string)) (row_limit : option Z) :
  from_html doc (One (IdStr s)) header column_names_kw row_limit
    = Raise (Exception "Not implemented yet.") /\
  forall rest : list table_id,
    from_html doc (Many (IdStr s :: rest)) header column_names_kw row_limit
      = Raise (Exception "Not implemented yet.").
Proof.
  split.
  - rewrite from_html_one. reflexivity.
  - intros rest. reflexivity.
Qed.

(** C7. In a table without head rows whose first body row has only [th]
    cells, that row goes to the head group, followed by the all-[th] rows
    right after it; the body group starts at the first row that is not
    all-[th], or is empty.  The rows of the table built are the expansion
    of that body group, so the moved rows are not in them. *)
Theorem implicit_header_rows (table_html : TableNode) (row_limit : option Z)
    (tr : TrNode) (rest : list TrNode) :
  parse_thead_tr table_html = [] ->
  limit_rows (parse_tbody_tr table_html) row_limit = tr :: rest ->
  row_is_all_th tr = true ->
  exists moved kept : list TrNode,
    rest = moved ++ kept /\
    Forall (fun r => row_is_all_th r = true) moved /\
    (kept = [] \/ exists r kept', kept = r :: kept' /\ row_is_all_th r = false) /\
    classify_rows table_html row_limit =
      (tr :: moved, kept, parse_tfoot_tr table_html) /\
    forall (tables : list TableNode) (header : bool)
           (column_names_kw : option (list string)) (i : Z) (t : Table),
      Py.index tables i = Ok table_html ->
      from_html tables (One (IdInt i)) header column_names_kw row_limit
        = Ok (OneTable t) ->
      expand_colspan_rowspan kept = Ok (rows t).
Proof.
  intros Hhead Hbody Hth.
  destruct (move_header_rows_spec [tr] rest) as (moved & kept & Hrest & Hall & Hkept & Hmove).
  assert (classify_rows table_html row_limit =
          (tr :: moved, kept, parse_tfoot_tr table_html)) as Hclass.
  { rewrite (classify_rows_no_head _ _ Hhead), Hbody.
    cbn [move_header_rows]. rewrite Hth. cbn [app]. rewrite Hmove. reflexivity. }
  exists moved, kept. repeat split; try assumption.
  intros tables header column_names_kw i t Hi E.
  rewrite from_html_one in E.
  destruct (load_table tables header column_names_kw row_limit (IdInt i)) as [t'|] eqn:E';
    [|discriminate].
  cbn [bind] in E. injection E as ->.
  pose proof (load_table_rows _ _ _ _ _ _ _ Hi E') as Hrows.
  rewrite Hclass in Hrows. exact Hrows.
Qed.

Lemma implicit_header_rows_witness :
  exists moved kept : list TrNode,
    [Sample.tr [Sample.td "Ada"; Sample.td "36"];
     Sample.tr [Sample.td "Alan"; Sample.td "41"]] = moved ++ kept /\
    classify_rows implicit_header_table None =
      (Sample.tr [Sample.th "Name"; Sample.th "Age"] :: moved, kept, []) /\
    expand_colspan_rowspan kept = Ok [["Ada"; "36"]; ["Alan"; "41"]].
Proof.
  destruct (implicit_header_rows implicit_header_table None
              (Sample.tr [Sample.th "Name"; Sample.th "Age"])
              [Sample.tr [Sample.td "Ada"; Sample.td "36"];
               Sample.tr [Sample.td "Alan"; Sample.td "41"]])
    as (moved & kept & Hrest & _ & _ & Hclass & Hrows).
  - reflexivity.
  - reflexivity.
  - reflexivity.
  - exists moved, kept. split; [exact Hrest|]. split; [exact Hclass|].
    apply (Hrows [implicit_header_table] true None 0
                 (mkTableArgs [["Ada"; "36"]; ["Alan"; "41"]] ["Name"; "Age"])).
    + reflexivity.
    + reflexivity.
Defined.

(** C10. In a table without head rows, leading body rows without any cell
    count as all-[th] rows (the test over no cell holds): each of them is
    moved to the head group, and the fallback goes on with the rows after
    them. *)
Theorem empty_rows_move_to_head (table_html : TableNode) (row_limit : option Z)
    (empties rest : list TrNode) :
  parse_thead_tr table_html = [] ->
  limit_rows (parse_tbody_tr table_html) row_limit = empties ++ rest ->
  Forall (fun tr => parse_td tr = []) empties ->
  Forall (fun tr => row_is_all_th tr = true) empties /\
  classify_rows table_html row_limit =
    (empties ++ fst (move_header_rows [] rest),
     snd (move_header_rows [] rest),
     parse_tfoot_tr table_html).
Proof.
  intros Hhead Hbody Hempty.
  assert (Forall (fun tr => row_is_all_th tr = true) empties) as Hall.
  { eapply List.Forall_impl; [|exact Hempty]. intros tr. apply empty_row_is_all_th. }
  split; [exact Hall|].
  rewrite (classify_rows_no_head _ _ Hhead), Hbody.
  assert (forall head_rows,
             move_header_rows head_rows (empties ++ rest) =
             move_header_rows (head_rows ++ empties) rest) as Hmove.
  { clear Hbody Hempty. induction Hall as [|tr empties Htr _ IH]; intros head_rows.
    - cbn. now rewrite app_nil_r.
    - cbn [app move_header_rows]. rewrite Htr, IH, <- app_assoc. reflexivity. }
  rewrite Hmove. cbn [app fst snd].
  rewrite (move_header_rows_prefix empties rest). reflexivity.
Qed.

Lemma empty_rows_move_to_head_witness :
  classify_rows empty_rows_table None =
    ([Sample.tr []; Sample.tr []; Sample.tr [Sample.th "Name"]],
     [Sample.tr [Sample.td "Ada"]], []).
Proof.
  apply (empty_rows_move_to_head empty_rows_table None
           [Sample.tr []; Sample.tr []]
           [Sample.tr [Sample.th "Name"]; Sample.tr [Sample.td "Ada"]]).
  - reflexivity.
  - reflexivity.
  - repeat constructor.
Defined.

(** ** Row limit *)

Lemma expand_colspan_rowspan_ok (rws : list TrNode) (out : list DenseRow) :
  expand_colspan_rowspan rws = Ok out ->
  exists (all_texts : list DenseRow) (rem : list Pending),
    expand_rows rws [] [] = Ok (all_texts, rem) /\
    length all_texts = length rws /\
    out = all_texts ++ trailing_rows (trailing_passes rem) rem.
Proof.
  unfold expand_colspan_rowspan. intros E.
  destruct (expand_rows rws [] []) as [[all_texts rem]|e] eqn:E1; [|discriminate].
  cbn [bind fst snd] in E. injection E as <-.
  exists all_texts, rem.
  assert (Forall live rem) as Hlive
      by (eapply expand_rows_live; [exact E1 | constructor]).
  destruct (flush_trailing_spec _ rem all_texts Hlive eq_refl) as (E2 & _).
  split; [reflexivity|]. split; [|exact E2].
  apply expand_rows_length in E1. exact E1.
Qed.

(** C5, as stated, fails: with [row_limit=2] the rowspan of a kept row
    that reaches past row 2 adds a third row to the body. *)
Lemma row_limit_counterexample :
  length (parse_tbody_tr spanning_table) = 5%nat /\
  from_html [spanning_table] (One (IdInt 0)) true None (Some 2) =
    Ok (OneTable (mkTableArgs [["Q1"; "Jan"]; ["Q1"; "Feb"]; ["Q1"]]
                              ["Quarter"; "Month"])) /\
  ~ row_limit_claim.
Proof.
  split; [reflexivity|]. split; [reflexivity|].
  intros H.
  specialize (H [spanning_table] true None 0 spanning_table
                (mkTableArgs [["Q1"; "Jan"]; ["Q1"; "Feb"]; ["Q1"]]
                             ["Quarter"; "Month"])
                eq_refl eq_refl eq_refl).
  discriminate H.
Qed.

(** C5, amended. With [row_limit=2] on a body of five rows, the limit is
    applied to the rows as parsed, before the fallback for a missing head
    and before the expansion: the body group is the first two rows, less
    the leading rows the fallback moves to an empty head group.  The
    table built has one row per row of that group, followed by one row
    per pass of the final loop on the spans that reach past the group: two
    rows exactly when the head is explicit and no span is pending after
    row 2. *)
Theorem row_limit_before_expansion (tables : list TableNode) (header : bool)
    (column_names_kw : option (list string)) (i : Z)
    (table_html : TableNode) (t : Table) :
  Py.index tables i = Ok table_html ->
  length (parse_tbody_tr table_html) = 5%nat ->
  from_html tables (One (IdInt i)) header column_names_kw (Some 2) = Ok (OneTable t) ->
  exists (r1 r2 : TrNode) (rest moved kept : list TrNode)
         (all_texts : list DenseRow) (rem : list Pending),
    parse_tbody_tr table_html = r1 :: r2 :: rest /\
    [r1; r2] = moved ++ kept /\
    (parse_thead_tr table_html <> [] -> moved = []) /\
    (parse_thead_tr table_html = [] -> move_header_rows [] [r1; r2] = (moved, kept)) /\
    expand_rows kept [] [] = Ok (all_texts, rem) /\
    length all_texts = length kept /\
    rows t = all_texts ++ trailing_rows (trailing_passes rem) rem /\
    length (rows t) = (length kept + trailing_passes rem)%nat /\
    (parse_thead_tr table_html <> [] -> rem = [] -> length (rows t) = 2%nat).
Proof.
  intros Hi Hlen E.
  rewrite from_html_one in E.
  destruct (load_table tables header column_names_kw (Some 2) (IdInt i)) as [t'|] eqn:E';
    [|discriminate].
  cbn [bind] in E. injection E as ->.
  pose proof (load_table_rows _ _ _ _ _ _ _ Hi E') as Hrows.
  destruct (parse_tbody_tr table_html) as [|r1 [|r2 rest]] eqn:Hbody; try discriminate.
  assert (limit_rows (r1 :: r2 :: rest) (Some 2) = [r1; r2]) as Hlimit by reflexivity.
  assert (exists moved kept : list TrNode,
             [r1; r2] = moved ++ kept /\
             (parse_thead_tr table_html <> [] -> moved = []) /\
             (parse_thead_tr table_html = [] ->
              move_header_rows [] [r1; r2] = (moved, kept)) /\
             snd (fst (classify_rows table_html (Some 2))) = kept)
    as (moved & kept & Hsplit & Hexplicit & Hfallback & Hkept).
  { destruct (parse_thead_tr table_html) as [|h hs] eqn:Hhead.
    - destruct (move_header_rows_spec [] [r1; r2]) as (moved & kept & Hs & _ & _ & Hm).
      exists moved, kept. split; [exact Hs|]. split; [congruence|].
      split; [intros _; exact Hm|].
      rewrite (classify_rows_no_head _ _ Hhead), Hbody, Hlimit, Hm. reflexivity.
    - exists [], [r1; r2]. split; [reflexivity|]. split; [reflexivity|].
      split; [discriminate|].
      rewrite classify_rows_explicit_head by (rewrite Hhead; discriminate).
      rewrite Hbody, Hlimit. reflexivity. }
  rewrite Hkept in Hrows.
  destruct (expand_colspan_rowspan_ok _ _ Hrows) as (all_texts & rem & Hloop & Hlen' & Hout).
  exists r1, r2, rest, moved, kept, all_texts, rem.
  assert (length (rows t) = (length kept + trailing_passes rem)%nat) as Hcount
      by (rewrite Hout, length_app, trailing_rows_length, Hlen'; reflexivity).
  repeat split; try assumption.
  intros Hne Hrem. rewrite Hcount, Hrem.
  specialize (Hexplicit Hne). subst moved. cbn in Hsplit. subst kept. reflexivity.
Qed.

Lemma row_limit_before_expansion_witness :
  exists (r1 r2 : TrNode) (rest moved kept : list TrNode)
         (all_texts : list DenseRow) (rem : list Pending),
    parse_tbody_tr spanning_table = r1 :: r2 :: rest /\
    [r1; r2] = moved ++ kept /\
    expand_rows kept [] [] = Ok (all_texts, rem) /\
    [["Q1"; "Jan"]; ["Q1"; "Feb"]; ["Q1"]] =
      all_texts ++ trailing_rows (trailing_passes rem) rem /\
    3%nat = (length kept + trailing_passes rem)%nat.
Proof.
  destruct (row_limit_before_expansion [spanning_table] true None 0 spanning_table
              (mkTableArgs [["Q1"; "Jan"]; ["Q1"; "Feb"]; ["Q1"]]
                           ["Quarter"; "Month"]))
    as (r1 & r2 & rest & moved & kept & all_texts & rem
        & H1 & H2 & _ & _ & H3 & _ & H4 & H5 & _).
  - reflexivity.
  - reflexivity.
  - reflexivity.
  - exists r1, r2, rest, moved, kept, all_texts, rem.
    repeat split; assumption.
Defined.

(** ** Span attributes *)

(** C6, as stated, fails: a colspan of 0 or less is not taken as 1, the
    cell adds no text; a span that does not parse is not taken as 1
    either, the call raises [ValueError]. *)
Lemma span_default_counterexample :
  expand_colspan_rowspan [Sample.tr [Sample.td_colspan "a" "0"; Sample.td "b"]]
    = Ok [["b"]] /\
  expand_colspan_rowspan [Sample.tr [Sample.td_colspan "a" "-2"; Sample.td "b"]]
    = Ok [["b"]] /\
  expand_colspan_rowspan [Sample.tr [Sample.td_rowspan "a" "two"; Sample.td "b"]]
    = Raise (ValueError "two") /\
  ~ span_default_claim.
Proof.
  repeat (split; [reflexivity|]).
  intros H. specialize (H (Sample.td_colspan "a" "0") (mkRowState [] [] [] 0)).
  vm_compute in H. discriminate H.
Qed.

(** C6, amended. The rowspan and colspan of a cell are its attribute
    parsed as an integer, and 1 when the attribute is absent or empty.  A
    value that does not parse makes the expansion raise [ValueError].  The
    parsed value is used as it is: a rowspan of 0 or less behaves as a
    rowspan of 1, and with a colspan of 0 or less the cell adds no text. *)
Theorem span_values (td : Node) (st : RowState) :
  let st0 := flush_before (remainder st) (texts st) (next_remainder st) (index st) in
  (forall attr : string,
      attr_getter td attr = None \/ attr_getter td attr = Some ""%string ->
      span_attr td attr = Ok 1) /\
  (forall attr s : string,
      attr_getter td attr = Some s -> s <> ""%string ->
      span_attr td attr =
      match Py.int s with
      | Some n => Ok n
      | None => Raise (ValueError s)
      end) /\
  (forall e : exn, span_attr td "rowspan" = Raise e -> expand_td td st = Raise e) /\
  (forall (r : Z) (e : exn),
      span_attr td "rowspan" = Ok r -> span_attr td "colspan" = Raise e ->
      expand_td td st = Raise e) /\
  (forall r c : Z,
      spans td r c ->
      expand_td td st = Ok (append_cell (Z.to_nat c) (cell_text td) r st0)) /\
  (forall r c : Z,
      spans td r c -> r <= 0 ->
      expand_td td st = Ok (append_cell (Z.to_nat c) (cell_text td) 1 st0)) /\
  (forall r c : Z,
      spans td r c -> c <= 0 -> expand_td td st = Ok st0).
Proof.
  intros st0. repeat split.
  - intros attr [H|H]; unfold span_attr; rewrite H; reflexivity.
  - intros attr s H Hs. unfold span_attr. rewrite H.
    destruct (String.eqb_spec s ""); [contradiction | reflexivity].
  - intros e H. unfold expand_td. rewrite H. reflexivity.
  - intros r e Hr Hc. unfold expand_td. rewrite Hr, Hc. reflexivity.
  - intros r c H. apply expand_td_spans, H.
  - intros r c H Hr. rewrite (expand_td_spans _ _ _ _ H).
    rewrite !append_cell_short by lia. reflexivity.
  - intros r c H Hc. rewrite (expand_td_spans _ _ _ _ H).
    replace (Z.to_nat c) with 0%nat by lia. reflexivity.
Qed.

Lemma span_values_witness :
  expand_td (Sample.td_colspan "a" "-2") (mkRowState [] ["x"] [] 1)
    = Ok (mkRowState [] ["x"] [] 1) /\
  span_attr (Sample.td_rowspan "a" "two") "rowspan" = Raise (ValueError "two") /\
  span_attr (Sample.td_rowspan "a" " 2 ") "rowspan" = Ok 2 /\
  span_attr (Sample.td_rowspan "a" "") "rowspan" = Ok 1.
Proof.
  split; [|split; [|split]].
  - apply (proj2 (proj2 (proj2 (proj2 (proj2 (proj2
             (span_values (Sample.td_colspan "a" "-2") (mkRowState [] ["x"] [] 1))))))))
      with (r := 1) (c := -2); [split; reflexivity | lia].
  - apply (proj1 (proj2
             (span_values (Sample.td_rowspan "a" "two") (mkRowState [] [] [] 0)))
             "rowspan" "two"%string); [reflexivity | discriminate].
  - apply (proj1 (proj2
             (span_values (Sample.td_rowspan "a" " 2 ") (mkRowState [] [] [] 0)))
             "rowspan" " 2 "%string); [reflexivity | discriminate].
  - apply (proj1
             (span_values (Sample.td_rowspan "a" "") (mkRowState [] [] [] 0))
             "rowspan"). right. reflexivity.
Defined.

(** ** The built-ins on sample values *)

Example int_samples :
  Py.int "3" = Some 3 /\ Py.int " 12 " = Some 12 /\ Py.int "-2" = Some (-2) /\
  Py.int "+4" = Some 4 /\ Py.int "007" = Some 7 /\ Py.int "1_000" = Some 1000 /\
  Py.int "" = None /\ Py.int "two" = None /\ Py.int "1__0" = None /\
  Py.int "2.0" = None /\ Py.int "- 1" = None /\ Py.int "50%" = None /\
  Py.int (String "028" "1") = None /\ Py.int (String "160" "1") = Some 1.
Proof. repeat split; reflexivity. Qed.

Example remove_whitespace_samples :
  _remove_whitespace "  Total   sales " = "Total sales"%string /\
  _remove_whitespace "a b" = "a b"%string /\
  _remove_whitespace (String "a" (String "010" (String "013" (String "b" ""))))
    = "a b"%string /\
  _remove_whitespace (String "a" (String "010" (String " " (String " " (String "b" "")))))
    = "a  b"%string.
Proof. repeat split; reflexivity. Qed.

Example slice_samples :
  Py.slice_to [1; 2; 3; 4; 5] 2 = [1; 2] /\
  Py.slice_to [1; 2; 3; 4; 5] 0 = [] /\
  Py.slice_to [1; 2; 3; 4; 5] 9 = [1; 2; 3; 4; 5] /\
  Py.slice_to [1; 2; 3; 4; 5] (-1) = [1; 2; 3; 4] /\
  Py.slice_to [1; 2; 3; 4; 5] (-7) = [].
Proof. repeat split; reflexivity. Qed.

(** * Further properties of the expansion *)

Section Blocks.

Lemma append_cell_long (n : nat) (t : string) (r : Z) (st : RowState) :
  1 < r ->
  append_cell n t r st =
  mkRowState (remainder st) (texts st ++ repeat t n)
    (next_remainder st
     ++ List.map (fun k => (index st + Z.of_nat k, t, r - 1)) (seq 0 n))
    (index st + Z.of_nat n).
Proof.
  intros Hr. revert st. induction n as [|n IH]; intros [rem txt next idx].
  - cbn [append_cell repeat remainder texts next_remainder index seq List.map].
    rewrite !app_nil_r, Z.add_0_r. reflexivity.
  - cbn [append_cell]. rewrite IH.
    cbn [remainder texts next_remainder index repeat seq List.map].
    assert ((1 <? r) = true) as -> by (apply Z.ltb_lt; lia).
    rewrite <- !app_assoc. cbn [app]. rewrite <- seq_shift, List.map_map.
    f_equal; [|lia]. do 2 f_equal.
    + f_equal. f_equal. lia.
    + apply List.map_ext. intros k. f_equal. f_equal. lia.
Qed.

Lemma survivors_uniform (m : Z) (t : string) (idxs : list Z) :
  survivors (List.map (fun i => (i, t, m)) idxs) =
  if 1 <? m then List.map (fun i => (i, t, m - 1)) idxs else [].
Proof.
  induction idxs as [|i idxs IH]; cbn [List.map].
  - destruct (1 <? m); reflexivity.
  - rewrite survivors_cons, IH. unfold survivors, pending_rowspan. cbn.
    destruct (1 <? m); reflexivity.
Qed.

(** A queue whose entries all have [m] rows left gives [m] equal rows. *)
Lemma flush_trailing_uniform (n : nat) (m : Z) (t : string) (idxs : list Z)
    (all_texts : list DenseRow) :
  idxs <> [] -> 1 <= m -> Z.to_nat m = n ->
  flush_trailing (List.map (fun i => (i, t, m)) idxs) all_texts =
  all_texts ++ repeat (repeat t (length idxs)) n.
Proof.
  intros Hne. revert m all_texts. induction n as [|n IH]; intros m all_texts Hm En; [lia|].
  destruct idxs as [|i idxs]; [congruence|].
  cbn [List.map]. rewrite flush_trailing_cons.
  change ((i, t, m) :: List.map (fun i0 => (i0, t, m)) idxs)
    with (List.map (fun i0 : Z => (i0, t, m)) (i :: idxs)).
  assert (List.map pending_text (List.map (fun i0 : Z => (i0, t, m)) (i :: idxs))
          = repeat t (length (i :: idxs))) as ->.
  { generalize (i :: idxs). intros l. induction l as [|a l IHl]; cbn; [reflexivity|].
    unfold pending_text at 1. cbn. f_equal. exact IHl. }
  rewrite survivors_uniform.
  destruct (Z.eq_dec m 1) as [->|Hm1].
  - cbn. rewrite flush_trailing_nil. assert (n = 0%nat) as -> by lia. reflexivity.
  - assert ((1 <? m) = true) as -> by (apply Z.ltb_lt; lia).
    rewrite (IH (m - 1)) by lia. rewrite <- app_assoc. reflexivity.
Qed.

End Blocks.

(** X1. A row made of one cell with rowspan [r >= 1] and colspan [c >= 1]
    expands to a block of [r] rows of [c] copies of the cell's text. *)
Theorem single_cell_block (tr : TrNode) (td : Node) (r c : Z) :
  parse_td tr = [td] ->
  spans td r c ->
  1 <= r -> 1 <= c ->
  expand_colspan_rowspan [tr] =
  Ok (repeat (repeat (cell_text td) (Z.to_nat c)) (Z.to_nat r)).
Proof.
  intros Htr Hsp Hr Hc.
  unfold expand_colspan_rowspan, expand_rows, expand_tr.
  rewrite Htr. cbn [expand_tds]. rewrite (expand_td_spans _ _ _ _ Hsp).
  cbn [bind remainder texts next_remainder index flush_before].
  destruct (Z.eq_dec r 1) as [->|Hr1].
  - rewrite append_cell_short by lia.
    cbn [bind remainder texts next_remainder index flush_all fst snd app].
    rewrite flush_trailing_nil. reflexivity.
  - rewrite append_cell_long by lia.
    cbn [bind remainder texts next_remainder index flush_all fst snd app].
    assert (List.map (fun k : nat => (0 + Z.of_nat k, cell_text td, r - 1))
                     (seq 0 (Z.to_nat c))
            = List.map (fun i : Z => (i, cell_text td, r - 1))
                       (List.map Z.of_nat (seq 0 (Z.to_nat c)))) as ->.
    { rewrite List.map_map. reflexivity. }
    rewrite (flush_trailing_uniform (Z.to_nat (r - 1)) (r - 1)); try lia.
    + rewrite !length_map, length_seq. cbn [app].
      replace (Z.to_nat r) with (S (Z.to_nat (r - 1))) by lia. reflexivity.
    + destruct (Z.to_nat c) eqn:E; [lia | discriminate].
Qed.

Lemma single_cell_block_witness :
  expand_colspan_rowspan
    [Sample.tr [mkNode "td" {[ "rowspan" := "3"; "colspan" := "2" ]} "x"]]
  = Ok [["x"; "x"]; ["x"; "x"]; ["x"; "x"]].
Proof.
  apply (single_cell_block
           (Sample.tr [mkNode "td" {[ "rowspan" := "3"; "colspan" := "2" ]} "x"])
           (mkNode "td" {[ "rowspan" := "3"; "colspan" := "2" ]} "x") 3 2).
  - reflexivity.
  - split; reflexivity.
  - lia.
  - lia.
Defined.

Section Width.

Lemma flush_before_count (rem : list Pending) (txt : DenseRow)
    (next : list Pending) (idx : Z) :
  (length (remainder (flush_before rem txt next idx))
   + length (texts (flush_before rem txt next idx))
   = length rem + length txt)%nat.
Proof.
  revert txt next idx. induction rem as [|p rem IH]; intros txt next idx; cbn.
  - reflexivity.
  - destruct (fst (fst p) <=? idx); cbn; [|reflexivity].
    rewrite IH, length_app. cbn. lia.
Qed.

Lemma append_cell_count (n : nat) (t : string) (r : Z) (st : RowState) :
  remainder (append_cell n t r st) = remainder st /\
  length (texts (append_cell n t r st)) = (length (texts st) + n)%nat.
Proof.
  revert st. induction n as [|n IH]; intros st; cbn [append_cell].
  - split; [reflexivity | lia].
  - destruct (IH (mkRowState (remainder st) (texts st ++ [t])
                    (if 1 <? r then next_remainder st ++ [(index st, t, r - 1)]
                     else next_remainder st) (index st + 1))) as [E1 E2].
    rewrite E1, E2. cbn. rewrite length_app. cbn. split; [reflexivity | lia].
Qed.

Lemma expand_td_count (td : Node) (st st' : RowState) :
  expand_td td st = Ok st' ->
  (length (remainder st') + length (texts st')
   = length (remainder st) + length (texts st) + colspan_of td)%nat.
Proof.
  unfold expand_td, colspan_of. intros E.
  destruct (span_attr td "rowspan") as [r|]; [|discriminate].
  destruct (span_attr td "colspan") as [c|]; [|discriminate].
  cbn [bind] in E. injection E as <-.
  destruct (append_cell_count (Z.to_nat c) (_remove_whitespace (text_getter td)) r
              (flush_before (remainder st) (texts st) (next_remainder st) (index st)))
    as [E1 E2].
  rewrite E1, E2. cbv beta iota.
  pose proof (flush_before_count (remainder st) (texts st) (next_remainder st) (index st)).
  lia.
Qed.

Lemma expand_tds_count (tds : list Node) (st st' : RowState) :
  expand_tds tds st = Ok st' ->
  (length (remainder st') + length (texts st')
   = length (remainder st) + length (texts st)
     + list_sum (List.map colspan_of tds))%nat.
Proof.
  revert st. induction tds as [|td tds IH]; intros st E; cbn in E.
  - injection E as <-. cbn. lia.
  - destruct (expand_td td st) as [st1|] eqn:E1; [|discriminate].
    cbn [bind] in E. apply IH in E. apply expand_td_count in E1.
    cbn [List.map].
    change (list_sum (colspan_of td :: List.map colspan_of tds))
      with (colspan_of td + list_sum (List.map colspan_of tds))%nat.
    lia.
Qed.

End Width.

(** X2. The width of a row produced: one text per entry of the queue the
    row starts from, and for each cell as many texts as its colspan (none
    for a colspan of 0 or less). *)
Theorem dense_row_width (tr : TrNode) (rem next : list Pending) (txt : DenseRow) :
  expand_tr tr rem = Ok (txt, next) ->
  length txt = (length rem + list_sum (List.map colspan_of (parse_td tr)))%nat.
Proof.
  unfold expand_tr. intros E.
  destruct (expand_tds (parse_td tr) (mkRowState rem [] [] 0)) as [st|] eqn:E1;
    [|discriminate].
  cbn [bind] in E. rewrite flush_all_spec in E. injection E as <- _.
  apply expand_tds_count in E1. cbn in E1.
  rewrite length_app, length_map. lia.
Qed.

Lemma dense_row_width_witness :
  length ["Q1"; "Feb"; "Feb"; "x"] = (2 + list_sum [2; 0])%nat.
Proof.
  apply (dense_row_width
           (Sample.tr [Sample.td_colspan "Feb" "2"; Sample.td_colspan "gone" "0"])
           [(0, "Q1", 2); (7, "x", 1)] [(0, "Q1", 1)] ["Q1"; "Feb"; "Feb"; "x"]).
  reflexivity.
Defined.

Section Insertion.

Variables (i r : Z) (t : string).

(** A row of cells without spans that starts from the queue [[(i, t, r)]]. *)
Lemma expand_tds_insert (tds : list Node) (txt : DenseRow) (idx : Z) :
  Forall (fun td => spans td 1 1) tds ->
  (st <-- expand_tds tds (mkRowState [(i, t, r)] txt [] idx) ;;
   Ok (flush_all (remainder st) (texts st) (next_remainder st))) =
  Ok (txt ++ firstn (Z.to_nat (i - idx)) (List.map cell_text tds) ++ [t]
          ++ skipn (Z.to_nat (i - idx)) (List.map cell_text tds),
      carry_over (i, t, r) []).
Proof.
  intros H. revert txt idx. induction H as [|td tds Htd Htds IH]; intros txt idx.
  - cbn. rewrite firstn_nil, skipn_nil. reflexivity.
  - cbn [expand_tds]. rewrite (expand_td_spans _ _ _ _ Htd).
    cbn [bind remainder texts next_remainder index flush_before fst].
    destruct (i <=? idx) eqn:E.
    + apply Z.leb_le in E. rewrite append_cell_short by lia.
      cbn [remainder texts next_remainder index flush_before].
      rewrite (expand_tds_unit _ _ _ _ Htds).
      cbn [bind remainder texts next_remainder flush_all].
      replace (Z.to_nat (i - idx)) with 0%nat by lia.
      cbn [firstn skipn List.map app pending_text fst snd].
      rewrite <- !app_assoc. reflexivity.
    + apply Z.leb_gt in E. rewrite append_cell_short by lia.
      cbn [remainder texts next_remainder index].
      change (Z.to_nat 1) with 1%nat. cbn [repeat].
      specialize (IH (txt ++ [cell_text td]) (idx + Z.of_nat 1)).
      rewrite IH.
      replace (Z.to_nat (i - idx)) with (S (Z.to_nat (i - (idx + Z.of_nat 1)))) by lia.
      cbn [firstn skipn List.map app]. rewrite <- !app_assoc. reflexivity.
Qed.

End Insertion.

(** X3. A row of cells without spans that starts from a queue of one
    entry [(i, t, r)] gets the text [t] at column [i], between its own
    texts (at the end when the row has fewer than [i] cells); the entry
    stays queued, with one row less, when it has more than one row left. *)
Theorem pending_text_at_column (tr : TrNode) (i r : Z) (t : string) :
  unit_row tr ->
  expand_tr tr [(i, t, r)] =
  Ok (firstn (Z.to_nat i) (List.map cell_text (parse_td tr)) ++ [t]
        ++ skipn (Z.to_nat i) (List.map cell_text (parse_td tr)),
      if 1 <? r then [(i, t, r - 1)] else []).
Proof.
  intros H. unfold expand_tr.
  rewrite (expand_tds_insert i r t _ [] 0 H). rewrite Z.sub_0_r.
  cbn [app carry_over]. destruct (1 <? r); reflexivity.
Qed.

Lemma pending_text_at_column_witness :
  expand_tr (Sample.tr [Sample.td "a"; Sample.td "b"; Sample.td "c"]) [(1, "Q1", 2)]
  = Ok (["a"; "Q1"; "b"; "c"], [(1, "Q1", 1)]).
Proof.
  apply (pending_text_at_column
           (Sample.tr [Sample.td "a"; Sample.td "b"; Sample.td "c"]) 1 2 "Q1").
  repeat constructor.
Defined.

Section Errors.

Lemma span_attr_raise (td : Node) (attr : string) (e : exn) :
  span_attr td attr = Raise e ->
  exists s : string,
    attr_getter td attr = Some s /\ Py.int s = None /\ e = ValueError s.
Proof.
  unfold span_attr. intros E.
  destruct (attr_getter td attr) as [s|]; [|discriminate].
  destruct (String.eqb s ""); [discriminate|].
  destruct (Py.int s) eqn:Ei; [discriminate|].
  injection E as <-. exists s. repeat split. exact Ei.
Qed.

Lemma expand_td_raise (td : Node) (st : RowState) (e : exn) :
  expand_td td st = Raise e ->
  exists attr : string,
    (attr = "rowspan"%string \/ attr = "colspan"%string) /\ span_attr td attr = Raise e.
Proof.
  unfold expand_td. intros E.
  destruct (span_attr td "rowspan") as [r|e1] eqn:E1.
  - destruct (span_attr td "colspan") as [c|e2] eqn:E2; [discriminate|].
    cbn [bind] in E. injection E as <-. exists "colspan"%string. auto.
  - cbn [bind] in E. injection E as <-. exists "rowspan"%string. auto.
Qed.

Lemma expand_tds_raise (tds : list Node) (st : RowState) (e : exn) :
  expand_tds tds st = Raise e ->
  exists (td : Node) (attr : string),
    In td tds /\ (attr = "rowspan"%string \/ attr = "colspan"%string) /\
    span_attr td attr = Raise e.
Proof.
  revert st. induction tds as [|td tds IH]; intros st E; cbn in E; [discriminate|].
  destruct (expand_td td st) as [st1|e1] eqn:E1; cbn [bind] in E.
  - destruct (IH _ E) as (td' & attr & Hin & Hattr & Hraise).
    exists td', attr. repeat split; [right; exact Hin | exact Hattr | exact Hraise].
  - injection E as <-. destruct (expand_td_raise _ _ _ E1) as (attr & Hattr & Hraise).
    exists td, attr. repeat split; [left; reflexivity | exact Hattr | exact Hraise].
Qed.

Lemma expand_rows_raise (rws : list TrNode) (all_texts : list DenseRow)
    (rem : list Pending) (e : exn) :
  expand_rows rws all_texts rem = Raise e ->
  exists (tr : TrNode) (td : Node) (attr : string),
    In tr rws /\ In td (parse_td tr) /\
    (attr = "rowspan"%string \/ attr = "colspan"%string) /\
    span_attr td attr = Raise e.
Proof.
  revert all_texts rem. induction rws as [|tr rws IH]; intros all_texts rem E; cbn in E;
    [discriminate|].
  destruct (expand_tr tr rem) as [r|e1] eqn:E1; cbn [bind] in E.
  - destruct (IH _ _ E) as (tr' & td & attr & Hin & H).
    exists tr', td, attr. split; [right; exact Hin | exact H].
  - injection E as <-. unfold expand_tr in E1.
    destruct (expand_tds (parse_td tr) (mkRowState rem [] [] 0)) as [st|e2] eqn:E2;
      [discriminate|].
    cbn [bind] in E1. injection E1 as <-.
    destruct (expand_tds_raise _ _ _ E2) as (td & attr & H).
    exists tr, td, attr. split; [left; reflexivity | exact H].
Qed.

Lemma expand_td_ok_parses (td : Node) (st st' : RowState) :
  expand_td td st = Ok st' -> parses td.
Proof.
  unfold expand_td, parses, spans. intros E.
  destruct (span_attr td "rowspan") as [r|]; [|discriminate].
  destruct (span_attr td "colspan") as [c|]; [|discriminate].
  exists r, c. split; reflexivity.
Qed.

Lemma expand_tds_ok_parses (tds : list Node) (st st' : RowState) :
  expand_tds tds st = Ok st' -> Forall parses tds.
Proof.
  revert st. induction tds as [|td tds IH]; intros st E; cbn in E; [constructor|].
  destruct (expand_td td st) as [st1|] eqn:E1; [|discriminate].
  cbn [bind] in E. constructor; [eapply expand_td_ok_parses, E1 | eapply IH, E].
Qed.

Lemma expand_rows_ok_parses (rws : list TrNode) (all_texts : list DenseRow)
    (rem : list Pending) (r : list DenseRow * list Pending) :
  expand_rows rws all_texts rem = Ok r ->
  Forall (fun tr => Forall parses (parse_td tr)) rws.
Proof.
  revert all_texts rem. induction rws as [|tr rws IH]; intros all_texts rem E; cbn in E;
    [constructor|].
  destruct (expand_tr tr rem) as [r1|] eqn:E1; [|discriminate].
  cbn [bind] in E. constructor; [|eapply IH, E].
  unfold expand_tr in E1.
  destruct (expand_tds (parse_td tr) (mkRowState rem [] [] 0)) as [st|] eqn:E2;
    [|discriminate].
  eapply expand_tds_ok_parses, E2.
Qed.

Lemma expand_rows_from (rws : list TrNode) (all_texts : list DenseRow)
    (rem : list Pending) :
  expand_rows rws all_texts rem =
  (r <-- expand_rows rws [] rem ;; Ok (all_texts ++ fst r, snd r)).
Proof.
  revert all_texts rem. induction rws as [|tr rws IH]; intros all_texts rem; cbn.
  - rewrite app_nil_r. reflexivity.
  - destruct (expand_tr tr rem) as [r1|]; cbn [bind]; [|reflexivity].
    rewrite (IH (all_texts ++ [fst r1])), (IH [fst r1]).
    destruct (expand_rows rws [] (snd r1)) as [r2|]; cbn [bind fst snd]; [|reflexivity].
    rewrite <- app_assoc. reflexivity.
Qed.

End Errors.

(** X4. The only exception [expand_colspan_rowspan] raises is the
    [ValueError] of [int] on the rowspan or colspan attribute of one of
    the cells: an attribute that is there, not empty, and does not read as
    an integer. *)
Theorem expand_raises_only_value_error (rws : list TrNode) (e : exn) :
  expand_colspan_rowspan rws = Raise e ->
  exists (tr : TrNode) (td : Node) (attr s : string),
    In tr rws /\ In td (parse_td tr) /\
    (attr = "rowspan"%string \/ attr = "colspan"%string) /\
    attr_getter td attr = Some s /\ s <> ""%string /\ Py.int s = None /\
    e = ValueError s.
Proof.
  unfold expand_colspan_rowspan. intros E.
  destruct (expand_rows rws [] []) as [r|e1] eqn:E1; [discriminate|].
  cbn [bind] in E. injection E as <-.
  destruct (expand_rows_raise _ _ _ _ E1) as (tr & td & attr & Htr & Htd & Hattr & Hraise).
  destruct (span_attr_raise _ _ _ Hraise) as (s & Hs & Hint & ->).
  exists tr, td, attr, s. repeat split; try assumption.
  intros ->. unfold span_attr in Hraise. rewrite Hs in Hraise. discriminate.
Qed.

Lemma expand_raises_only_value_error_witness :
  exists (tr : TrNode) (td : Node) (attr s : string),
    In td (parse_td tr) /\ attr_getter td attr = Some s /\ Py.int s = None /\
    ValueError "2.5" = ValueError s.
Proof.
  destruct (expand_raises_only_value_error
              [Sample.tr [Sample.td "a"];
               Sample.tr [Sample.td "b"; Sample.td_colspan "c" "2.5"]]
              (ValueError "2.5"))
    as (tr & td & attr & s & _ & H1 & _ & H2 & _ & H3 & H4).
  - reflexivity.
  - exists tr, td, attr, s. repeat split; assumption.
Defined.

(** X5. [expand_colspan_rowspan] returns rows exactly when the rowspan
    and the colspan of every cell of every row are read without error
    (absent, empty or an integer literal); it then returns at least one
    row per input row. *)
Theorem expand_returns_iff_spans_parse (rws : list TrNode) :
  (exists out : list DenseRow,
      expand_colspan_rowspan rws = Ok out /\ (length rws <= length out)%nat)
  <-> Forall (fun tr => Forall parses (parse_td tr)) rws.
Proof.
  split.
  - intros (out & E & _). unfold expand_colspan_rowspan in E.
    destruct (expand_rows rws [] []) as [r|] eqn:E1; [|discriminate].
    eapply expand_rows_ok_parses, E1.
  - intros H. destruct (expand_colspan_rowspan rws) as [out|e] eqn:E.
    + exists out. split; [reflexivity|].
      destruct (expand_colspan_rowspan_ok _ _ E) as (all_texts & rem & _ & Hlen & ->).
      rewrite length_app. lia.
    + exfalso. unfold expand_colspan_rowspan in E.
      destruct (expand_rows rws [] []) as [r|e1] eqn:E1; [discriminate|].
      destruct (expand_rows_raise _ _ _ _ E1) as (tr & td & attr & Htr & Htd & Hattr & Hraise).
      rewrite List.Forall_forall in H. specialize (H tr Htr).
      rewrite List.Forall_forall in H. destruct (H td Htd) as (r & c & Hr & Hc).
      destruct Hattr as [-> | ->]; congruence.
Qed.

(** X6. Where no span is pending after the rows [a], the expansion of
    [a ++ b] is the rows of [a] followed by the expansion of [b] alone. *)
Theorem expand_splits_at_empty_queue (a b : list TrNode) (rows_a : list DenseRow) :
  expand_rows a [] [] = Ok (rows_a, []) ->
  expand_colspan_rowspan (a ++ b) =
  (out <-- expand_colspan_rowspan b ;; Ok (rows_a ++ out)).
Proof.
  intros Ha. unfold expand_colspan_rowspan.
  rewrite expand_rows_app, Ha. cbn [bind fst snd].
  rewrite expand_rows_from.
  destruct (expand_rows b [] []) as [[rows_b rem]|e] eqn:Eb; cbn [bind fst snd];
    [|reflexivity].
  assert (Forall live rem) as Hlive
      by (eapply expand_rows_live; [exact Eb | constructor]).
  destruct (flush_trailing_spec _ rem (rows_a ++ rows_b) Hlive eq_refl) as (-> & _).
  destruct (flush_trailing_spec _ rem rows_b Hlive eq_refl) as (-> & _).
  rewrite <- app_assoc. reflexivity.
Qed.

Lemma expand_splits_at_empty_queue_witness :
  expand_colspan_rowspan
    ([Sample.tr [Sample.td_rowspan "Q1" "2"; Sample.td "Jan"]; Sample.tr [Sample.td "Feb"]]
     ++ [Sample.tr [Sample.td "Q2"; Sample.td "Apr"]])
  = (out <-- expand_colspan_rowspan [Sample.tr [Sample.td "Q2"; Sample.td "Apr"]] ;;
     Ok ([["Q1"; "Jan"]; ["Q1"; "Feb"]] ++ out)).
Proof.
  apply (expand_splits_at_empty_queue
           [Sample.tr [Sample.td_rowspan "Q1" "2"; Sample.td "Jan"];
            Sample.tr [Sample.td "Feb"]]
           [Sample.tr [Sample.td "Q2"; Sample.td "Apr"]]
           [["Q1"; "Jan"]; ["Q1"; "Feb"]]).
  reflexivity.
Defined.

(** X7. Rows that follow never change the rows already produced: the
    first rows of the expansion of [a ++ b] are the rows the row loop
    gives for [a]. *)
Theorem expand_prefix_stable (a b : list TrNode) (rows_a out : list DenseRow)
    (rem : list Pending) :
  expand_rows a [] [] = Ok (rows_a, rem) ->
  expand_colspan_rowspan (a ++ b) = Ok out ->
  firstn (length a) out = rows_a.
Proof.
  intros Ha E. unfold expand_colspan_rowspan in E.
  rewrite expand_rows_app, Ha in E. cbn [bind fst snd] in E.
  rewrite expand_rows_from in E.
  destruct (expand_rows b [] rem) as [[rows_b rem']|e] eqn:Eb; cbn [bind fst snd] in E;
    [|discriminate].
  injection E as <-.
  assert (Forall live rem) as Hrem
      by (eapply expand_rows_live; [exact Ha | constructor]).
  assert (Forall live rem') as Hlive
      by (eapply expand_rows_live; [exact Eb | exact Hrem]).
  destruct (flush_trailing_spec _ rem' (rows_a ++ rows_b) Hlive eq_refl) as (-> & _).
  apply expand_rows_length in Ha. cbn in Ha.
  rewrite <- app_assoc, <- Ha, firstn_app, Nat.sub_diag, firstn_all.
  cbn. rewrite app_nil_r. reflexivity.
Qed.

Lemma expand_prefix_stable_witness :
  firstn 1 [["Q1"; "Jan"]; ["Q1"; "Feb"]; ["Q1"]] = [["Q1"; "Jan"]].
Proof.
  apply (expand_prefix_stable
           [Sample.tr [Sample.td_rowspan "Q1" "3"; Sample.td "Jan"]]
           [Sample.tr [Sample.td "Feb"]]
           [["Q1"; "Jan"]] [["Q1"; "Jan"]; ["Q1"; "Feb"]; ["Q1"]] [(0, "Q1", 2)]).
  - reflexivity.
  - reflexivity.
Defined.

(** * Whitespace normalisation *)

Section Whitespace.

Lemma newline_isspace (c : ascii) : is_newline c = true -> Py.isspace c = true.
Proof.
  unfold is_newline, Py.isspace. intros H.
  apply orb_true_iff in H. destruct H as [H|H]; apply N.eqb_eq in H; rewrite H;
    reflexivity.
Qed.

Lemma drop_leading_filter (space : ascii -> bool) (l : list ascii) :
  List.filter (fun c => negb (space c)) (Py.drop_leading space l) =
  List.filter (fun c => negb (space c)) l.
Proof.
  induction l as [|c l IH]; [reflexivity|].
  cbn [Py.drop_leading List.filter]. destruct (space c) eqn:E; cbn [negb].
  - exact IH.
  - cbn [List.filter]. rewrite E. reflexivity.
Qed.

Lemma filter_rev' (f : ascii -> bool) (l : list ascii) :
  List.filter f (rev l) = rev (List.filter f l).
Proof.
  induction l as [|c l IH]; [reflexivity|].
  cbn [rev List.filter]. rewrite List.filter_app, IH. cbn [List.filter].
  destruct (f c); cbn [rev]; [reflexivity | now rewrite app_nil_r].
Qed.

Lemma trim_filter (space : ascii -> bool) (l : list ascii) :
  List.filter (fun c => negb (space c)) (Py.trim space l) =
  List.filter (fun c => negb (space c)) l.
Proof.
  unfold Py.trim.
  rewrite filter_rev', drop_leading_filter, filter_rev', rev_involutive.
  apply drop_leading_filter.
Qed.

Lemma sub_whitespace_filter (st : sub_state) (l : list ascii) :
  List.filter (fun c => negb (Py.isspace c)) (sub_whitespace st l) =
  List.filter (fun c => negb (Py.isspace c)) l.
Proof.
  revert st. induction l as [|c l IH]; intros st; [reflexivity|].
  cbn [sub_whitespace].
  assert (List.filter (fun c => negb (Py.isspace c))
            (if is_newline c then " "%char :: sub_whitespace InNewlines l
             else if Py.isspace c && match l with
                                     | d :: _ => Py.isspace d
                                     | [] => false
                                     end
                  then " "%char :: sub_whitespace InSpaces l
                  else c :: sub_whitespace Copy l)
          = List.filter (fun c => negb (Py.isspace c)) (c :: l)) as Hfresh.
  { destruct (is_newline c) eqn:En.
    - cbn [List.filter]. rewrite (newline_isspace _ En). cbn. apply IH.
    - destruct (Py.isspace c) eqn:Es; cbn [andb].
      + destruct (match l with d :: _ => Py.isspace d | [] => false end);
          cbn [List.filter]; rewrite ?Es; cbn; apply IH.
      + cbn [List.filter]. rewrite Es. cbn [negb]. f_equal. apply IH. }
  destruct st.
  - exact Hfresh.
  - destruct (is_newline c) eqn:En; [|exact Hfresh].
    cbn [List.filter]. rewrite (newline_isspace _ En). cbn. apply IH.
  - destruct (Py.isspace c) eqn:Es; [|exact Hfresh].
    cbn [List.filter]. rewrite Es. cbn. apply IH.
Qed.

Lemma sub_whitespace_no_newline (st : sub_state) (l : list ascii) :
  Forall (fun c => is_newline c = false) (sub_whitespace st l).
Proof.
  revert st. induction l as [|c l IH]; intros st; [constructor|].
  cbn [sub_whitespace].
  assert (Forall (fun c => is_newline c = false)
            (if is_newline c then " "%char :: sub_whitespace InNewlines l
             else if Py.isspace c && match l with
                                     | d :: _ => Py.isspace d
                                     | [] => false
                                     end
                  then " "%char :: sub_whitespace InSpaces l
                  else c :: sub_whitespace Copy l)) as Hfresh.
  { destruct (is_newline c) eqn:En.
    - constructor; [reflexivity | apply IH].
    - destruct (Py.isspace c && _); constructor; try apply IH; [reflexivity | exact En]. }
  destruct st.
  - exact Hfresh.
  - destruct (is_newline c); [apply IH | exact Hfresh].
  - destruct (Py.isspace c); [apply IH | exact Hfresh].
Qed.

Lemma drop_leading_all (space : ascii -> bool) (l : list ascii) :
  Forall (fun c => space c = true) l -> Py.drop_leading space l = [].
Proof.
  induction 1 as [|c l Hc _ IH]; [reflexivity|]. cbn. rewrite Hc. exact IH.
Qed.

(** What is left of dropping leading whitespace starts with another
    character. *)
Lemma drop_leading_head (space : ascii -> bool) (l : list ascii) (c : ascii)
    (rest : list ascii) :
  Py.drop_leading space l = c :: rest -> space c = false.
Proof.
  induction l as [|d l IH]; cbn; [discriminate|].
  destruct (space d) eqn:E; [exact IH|]. intros [= <- _]. exact E.
Qed.

Lemma drop_leading_keeps (space : ascii -> bool) (l : list ascii) (c : ascii) :
  space c = false ->
  Py.drop_leading space (l ++ [c]) = Py.drop_leading space l ++ [c].
Proof.
  intros Hc. induction l as [|d l IH]; cbn.
  - rewrite Hc. reflexivity.
  - destruct (space d); [exact IH | reflexivity].
Qed.

(** A trimmed string neither starts nor ends with whitespace. *)
Lemma trim_ends (space : ascii -> bool) (l : list ascii) :
  (forall c rest, Py.trim space l = c :: rest -> space c = false) /\
  (forall init c, Py.trim space l = init ++ [c] -> space c = false).
Proof.
  unfold Py.trim. split.
  - intros c rest E.
    destruct (Py.drop_leading space l) as [|d l'] eqn:El.
    + cbn in E. discriminate.
    + pose proof (drop_leading_head _ _ _ _ El) as Hd.
      cbn [rev] in E. rewrite drop_leading_keeps in E by exact Hd.
      rewrite rev_app_distr in E. cbn in E. injection E as <- _. exact Hd.
  - intros init c E.
    apply (f_equal (@rev ascii)) in E. rewrite rev_involutive, rev_app_distr in E.
    cbn in E. eapply drop_leading_head, E.
Qed.

Lemma sub_whitespace_head (c : ascii) (l : list ascii) :
  Py.isspace c = false ->
  sub_whitespace Copy (c :: l) = c :: sub_whitespace Copy l.
Proof.
  intros Hc. cbn [sub_whitespace].
  destruct (is_newline c) eqn:En.
  - rewrite (newline_isspace _ En) in Hc. discriminate.
  - rewrite Hc. reflexivity.
Qed.

Lemma sub_whitespace_last (st : sub_state) (l : list ascii) (c : ascii) :
  Py.isspace c = false ->
  exists init : list ascii, sub_whitespace st (l ++ [c]) = init ++ [c].
Proof.
  intros Hc.
  assert (is_newline c = false) as Hn.
  { destruct (is_newline c) eqn:En; [|reflexivity].
    rewrite (newline_isspace _ En) in Hc. discriminate. }
  revert st. induction l as [|d l IH]; intros st.
  - exists []. cbn. rewrite Hn, Hc. destruct st; reflexivity.
  - cbn [app sub_whitespace].
    destruct (IH Copy) as [i1 E1], (IH InNewlines) as [i2 E2], (IH InSpaces) as [i3 E3].
    rewrite E1, E2, E3.
    assert (exists init,
               (if is_newline d then " "%char :: i2 ++ [c]
                else if Py.isspace d && match l ++ [c] with
                                        | d0 :: _ => Py.isspace d0
                                        | [] => false
                                        end
                     then " "%char :: i3 ++ [c]
                     else d :: i1 ++ [c]) = init ++ [c]) as [i Hi].
    { destruct (is_newline d); [exists (" "%char :: i2); reflexivity|].
      destruct (Py.isspace d && _);
        [exists (" "%char :: i3) | exists (d :: i1)]; reflexivity. }
    destruct st.
    + exists i. exact Hi.
    + destruct (is_newline d); [exists i2; reflexivity | exists i; exact Hi].
    + destruct (Py.isspace d); [exists i3; reflexivity | exists i; exact Hi].
Qed.

End Whitespace.

(** X8. [_remove_whitespace] changes whitespace only: the characters
    that are not whitespace are those of the argument, in the same order. *)
Theorem remove_whitespace_keeps_text (s : string) :
  List.filter (fun c => negb (Py.isspace c))
    (list_ascii_of_string (_remove_whitespace s)) =
  List.filter (fun c => negb (Py.isspace c)) (list_ascii_of_string s).
Proof.
  unfold _remove_whitespace, Py.strip.
  rewrite list_ascii_of_string_of_list_ascii, sub_whitespace_filter.
  apply trim_filter.
Qed.

(** X9. The text [_remove_whitespace] returns holds no carriage return
    and no line feed, and neither starts nor ends with whitespace; it is
    empty when the argument is all whitespace. *)
Theorem remove_whitespace_shape (s : string) :
  Forall (fun c => is_newline c = false)
    (list_ascii_of_string (_remove_whitespace s)) /\
  (forall c rest,
      list_ascii_of_string (_remove_whitespace s) = c :: rest ->
      Py.isspace c = false) /\
  (forall init c,
      list_ascii_of_string (_remove_whitespace s) = init ++ [c] ->
      Py.isspace c = false) /\
  (Forall (fun c => Py.isspace c = true) (list_ascii_of_string s) ->
   _remove_whitespace s = ""%string).
Proof.
  unfold _remove_whitespace, Py.strip.
  rewrite list_ascii_of_string_of_list_ascii.
  destruct (trim_ends Py.isspace (list_ascii_of_string s)) as [Hhead Hlast].
  split; [apply sub_whitespace_no_newline|]. split; [|split].
  - intros c rest E.
    destruct (Py.trim Py.isspace (list_ascii_of_string s)) as [|d l] eqn:Et;
      [discriminate|].
    pose proof (Hhead d l eq_refl) as Hd.
    rewrite (sub_whitespace_head _ _ Hd) in E. injection E as <- _. exact Hd.
  - intros init c E.
    destruct (Py.trim Py.isspace (list_ascii_of_string s)) as [|d l] eqn:Et.
    { destruct init; discriminate. }
    destruct (@exists_last _ (d :: l)) as (l' & z & El); [discriminate|].
    rewrite El in E, Hlast. pose proof (Hlast l' z eq_refl) as Hz.
    destruct (sub_whitespace_last Copy l' z Hz) as [i Hi].
    rewrite Hi in E. apply app_inj_tail in E. destruct E as [_ <-]. exact Hz.
  - intros Hall. unfold Py.trim. rewrite (drop_leading_all _ _ Hall). reflexivity.
Qed.

(** X10. A text that is already stripped, has no line break and no two
    whitespace characters in a row is returned unchanged. *)
Theorem remove_whitespace_fixed (s : string) :
  Py.strip (list_ascii_of_string s) = list_ascii_of_string s ->
  single_spaced (list_ascii_of_string s) = true ->
  _remove_whitespace s = s.
Proof.
  intros Hstrip Hsingle. unfold _remove_whitespace. rewrite Hstrip.
  assert (forall l, single_spaced l = true -> sub_whitespace Copy l = l) as Hsub.
  { induction l as [|c l IH]; [reflexivity|].
    cbn [single_spaced sub_whitespace]. intros H.
    apply andb_true_iff in H. destruct H as [H H3].
    apply andb_true_iff in H. destruct H as [H1 H2].
    apply negb_true_iff in H1, H2. rewrite H1, H2, (IH H3). reflexivity. }
  rewrite (Hsub _ Hsingle). apply string_of_list_ascii_of_string.
Qed.

Lemma remove_whitespace_fixed_witness :
  _remove_whitespace "Total sales 2020" = "Total sales 2020"%string.
Proof.
  apply (remove_whitespace_fixed "Total sales 2020"); reflexivity.
Defined.

(** * Further properties of the table assembler *)

Section Identifiers.

Lemma index_out_of_range {A} (l : list A) (i : Z) :
  Z.of_nat (length l) <= i \/ i < - Z.of_nat (length l) ->
  Py.index l i = Raise IndexError.
Proof.
  intros H. unfold Py.index. destruct (i <? 0) eqn:E.
  - apply Z.ltb_lt in E.
    destruct (Z.of_nat (length l) + i <? 0) eqn:E'; [reflexivity|].
    apply Z.ltb_ge in E'. lia.
  - rewrite E. apply Z.ltb_ge in E.
    destruct (nth_error l (Z.to_nat i)) eqn:En; [|reflexivity].
    assert (nth_error l (Z.to_nat i) <> None) as Hn by congruence.
    apply nth_error_Some in Hn. lia.
Qed.

Lemma index_from_end {A} (l : list A) (i : Z) :
  - Z.of_nat (length l) <= i < 0 ->
  Py.index l i = Py.index l (Z.of_nat (length l) + i).
Proof.
  intros H. unfold Py.index. cbv zeta.
  assert ((i <? 0) = true) as -> by (apply Z.ltb_lt; lia).
  assert ((Z.of_nat (length l) + i <? 0) = false) as E by (apply Z.ltb_ge; lia).
  rewrite !E. reflexivity.
Qed.

Lemma table_id_eqb_eq (a b : table_id) : table_id_eqb a b = true <-> a = b.
Proof.
  destruct a, b; cbn; split; intros H; try discriminate; try congruence.
  - apply String.eqb_eq in H. congruence.
  - injection H as ->. apply String.eqb_refl.
  - apply Z.eqb_eq in H. congruence.
  - injection H as ->. apply Z.eqb_refl.
  - apply String.eqb_eq in H. congruence.
  - injection H as ->. apply String.eqb_refl.
Qed.

End Identifiers.

(** X11. An integer identifier outside the range of the document's tables
    (at or above their number, or below minus their number) makes
    [from_html] raise [IndexError]; no empty table is returned. *)
Theorem table_index_out_of_range (doc : list TableNode) (i : Z) (header : bool)
    (column_names_kw : option (list string)) (row_limit : option Z) :
  Z.of_nat (length doc) <= i \/ i < - Z.of_nat (length doc) ->
  from_html doc (One (IdInt i)) header column_names_kw row_limit = Raise IndexError.
Proof.
  intros H. rewrite from_html_one. unfold load_table.
  rewrite (index_out_of_range _ _ H). reflexivity.
Qed.

Lemma table_index_out_of_range_witness :
  from_html two_tables (One (IdInt 99)) true None None = Raise IndexError.
Proof.
  apply (table_index_out_of_range two_tables 99 true None None).
  left. cbn. lia.
Defined.

(** X12. A negative integer identifier counts tables from the end of the
    document: [-1] is the last table. *)
Theorem table_index_from_end (doc : list TableNode) (i : Z) (header : bool)
    (column_names_kw : option (list string)) (row_limit : option Z) :
  - Z.of_nat (length doc) <= i < 0 ->
  from_html doc (One (IdInt i)) header column_names_kw row_limit =
  from_html doc (One (IdInt (Z.of_nat (length doc) + i))) header column_names_kw row_limit.
Proof.
  intros H. rewrite !from_html_one. unfold load_table.
  rewrite (index_from_end _ _ H). reflexivity.
Qed.

Lemma table_index_from_end_witness :
  from_html two_tables (One (IdInt (-1))) true None None =
  Ok (OneTable (mkTableArgs [["1999"]] ["Year"])).
Proof.
  rewrite (table_index_from_end two_tables (-1) true None None).
  - reflexivity.
  - cbn. lia.
Defined.

Section Groups.

Lemma expand_nil : expand_colspan_rowspan [] = Ok [].
Proof. unfold expand_colspan_rowspan. cbn. now rewrite flush_trailing_nil. Qed.

Lemma expand_ok_of_parses (rws : list TrNode) :
  Forall row_parses rws -> exists out : list DenseRow, expand_colspan_rowspan rws = Ok out.
Proof.
  intros H. destruct (expand_colspan_rowspan rws) as [out|e] eqn:E; [eauto|].
  exfalso. unfold expand_colspan_rowspan in E.
  destruct (expand_rows rws [] []) as [r|e1] eqn:E1; [discriminate|].
  destruct (expand_rows_raise _ _ _ _ E1) as (tr & td & attr & Htr & Htd & Hattr & Hraise).
  rewrite List.Forall_forall in H. specialize (H tr Htr). unfold row_parses in H.
  rewrite List.Forall_forall in H. destruct (H td Htd) as (r & c & Hr & Hc).
  destruct Hattr as [-> | ->]; congruence.
Qed.

Lemma slice_to_prefix {A} (l : list A) (n : Z) :
  exists rest : list A, l = Py.slice_to l n ++ rest.
Proof.
  unfold Py.slice_to. destruct (n <? 0);
    eexists; symmetry; apply firstn_skipn.
Qed.

Lemma limit_rows_prefix (body_rows : list TrNode) (row_limit : option Z) :
  exists rest : list TrNode, body_rows = limit_rows body_rows row_limit ++ rest.
Proof.
  destruct row_limit as [n|]; cbn [limit_rows].
  - apply slice_to_prefix.
  - exists []. now rewrite app_nil_r.
Qed.

(** The head and body groups hold rows of the table only. *)
Lemma classify_rows_parse (table_html : TableNode) (row_limit : option Z) :
  Forall row_parses (parse_thead_tr table_html) ->
  Forall row_parses (parse_tbody_tr table_html) ->
  Forall row_parses (fst (fst (classify_rows table_html row_limit))) /\
  Forall row_parses (snd (fst (classify_rows table_html row_limit))).
Proof.
  intros Hhead Hbody.
  destruct (limit_rows_prefix (parse_tbody_tr table_html) row_limit) as [rest Hrest].
  rewrite Hrest in Hbody. apply Forall_app in Hbody. destruct Hbody as [Hlim _].
  destruct (parse_thead_tr table_html) as [|h hs] eqn:E.
  - rewrite (classify_rows_no_head _ _ E). cbn [fst snd].
    destruct (move_header_rows_spec [] (limit_rows (parse_tbody_tr table_html) row_limit))
      as (moved & kept & Hsplit & _ & _ & ->).
    rewrite Hsplit in Hlim. apply Forall_app in Hlim. exact Hlim.
  - rewrite classify_rows_explicit_head by (rewrite E; discriminate).
    cbn [fst snd]. rewrite E. split; assumption.
Qed.

Lemma load_table_found (tables : list TableNode) (header : bool)
    (column_names_kw : option (list string)) (row_limit : option Z) (i : Z)
    (table_html : TableNode) :
  Py.index tables i = Ok table_html ->
  load_table tables header column_names_kw row_limit (IdInt i) =
  (head <-- expand_colspan_rowspan (fst (fst (classify_rows table_html row_limit))) ;;
   body <-- expand_colspan_rowspan (snd (fst (classify_rows table_html row_limit))) ;;
   foot <-- expand_colspan_rowspan (parse_tfoot_tr table_html) ;;
   column_names <--
     (if header then Py.index head 0
      else match column_names_kw with
           | Some names => Ok names
           | None => Raise (UnboundLocalError "column_names")
           end) ;;
   Ok (mkTableArgs body column_names)).
Proof.
  intros Hi. unfold load_table. rewrite Hi. cbn [bind].
  assert (snd (classify_rows table_html row_limit) = parse_tfoot_tr table_html) as Hfoot.
  { unfold classify_rows. destruct (parse_thead_tr table_html);
      [destruct (move_header_rows _ _)|]; reflexivity. }
  destruct (classify_rows table_html row_limit) as [[head_rows body_rows] foot_rows].
  cbn [fst snd] in *. subst foot_rows. reflexivity.
Qed.

End Groups.

(** X13. With [header=True], a table that has no head row (no [thead]
    row, and no leading body row made of [th] cells only) makes [from_html]
    raise [IndexError], whatever its body holds. *)
Theorem header_without_head_rows (tables : list TableNode) (i : Z)
    (table_html : TableNode) (column_names_kw : option (list string))
    (row_limit : option Z) :
  Py.index tables i = Ok table_html ->
  parse_thead_tr table_html = [] ->
  (forall tr rest,
      limit_rows (parse_tbody_tr table_html) row_limit = tr :: rest ->
      row_is_all_th tr = false) ->
  Forall row_parses (parse_tbody_tr table_html) ->
  Forall row_parses (parse_tfoot_tr table_html) ->
  from_html tables (One (IdInt i)) true column_names_kw row_limit = Raise IndexError.
Proof.
  intros Hi Hhead Hfirst Hbody Hfoot.
  rewrite from_html_one, (load_table_found _ _ _ _ _ _ Hi).
  destruct (classify_rows_parse table_html row_limit) as [_ Hb].
  { rewrite Hhead. constructor. }
  { exact Hbody. }
  assert (fst (fst (classify_rows table_html row_limit)) = []) as Hh.
  { rewrite (classify_rows_no_head _ _ Hhead). cbn [fst].
    destruct (limit_rows (parse_tbody_tr table_html) row_limit) as [|tr rest] eqn:E;
      [reflexivity|].
    cbn [move_header_rows]. rewrite (Hfirst tr rest eq_refl). reflexivity. }
  rewrite Hh, expand_nil. cbn [bind].
  destruct (expand_ok_of_parses _ Hb) as [body ->].
  destruct (expand_ok_of_parses _ Hfoot) as [foot ->].
  reflexivity.
Qed.

Lemma header_without_head_rows_witness :
  from_html [mkTable [] [Sample.tr [Sample.td "Oslo"]; Sample.tr [Sample.td "Rome"]] [] []]
            (One (IdInt 0)) true None None
  = Raise IndexError.
Proof.
  apply (header_without_head_rows
           [mkTable [] [Sample.tr [Sample.td "Oslo"]; Sample.tr [Sample.td "Rome"]] [] []]
           0 (mkTable [] [Sample.tr [Sample.td "Oslo"]; Sample.tr [Sample.td "Rome"]] [] [])
           None None).
  - reflexivity.
  - reflexivity.
  - intros tr rest [= <- _]. reflexivity.
  - repeat constructor; exists 1, 1; split; reflexivity.
  - constructor.
Defined.

(** X14. With [header=False] and no [column_names] argument, [from_html]
    raises [UnboundLocalError] for every table it finds whose span
    attributes all read: it has no column names to give. *)
Theorem no_header_no_column_names (tables : list TableNode) (i : Z)
    (table_html : TableNode) (row_limit : option Z) :
  Py.index tables i = Ok table_html ->
  Forall row_parses (parse_thead_tr table_html) ->
  Forall row_parses (parse_tbody_tr table_html) ->
  Forall row_parses (parse_tfoot_tr table_html) ->
  from_html tables (One (IdInt i)) false None row_limit
  = Raise (UnboundLocalError "column_names").
Proof.
  intros Hi Hhead Hbody Hfoot.
  rewrite from_html_one, (load_table_found _ _ _ _ _ _ Hi).
  destruct (classify_rows_parse table_html row_limit Hhead Hbody) as [Hh Hb].
  destruct (expand_ok_of_parses _ Hh) as [head ->].
  destruct (expand_ok_of_parses _ Hb) as [body ->].
  destruct (expand_ok_of_parses _ Hfoot) as [foot ->].
  reflexivity.
Qed.

Lemma no_header_no_column_names_witness :
  from_html two_tables (One (IdInt 1)) false None None
  = Raise (UnboundLocalError "column_names").
Proof.
  apply (no_header_no_column_names two_tables 1
           (mkTable [Sample.tr [Sample.th "Year"]] [Sample.tr [Sample.td "1999"]] [] [])
           None).
  - reflexivity.
  - repeat constructor; exists 1, 1; split; reflexivity.
  - repeat constructor; exists 1, 1; split; reflexivity.
  - constructor.
Defined.

(** X15. The rows of the foot group are not part of the table built: two
    tables that differ in their [tfoot] rows only give the same result, as
    long as the span attributes of the foot rows read. *)
Theorem foot_rows_dropped (tables tables' : list TableNode) (i : Z)
    (table_html table_html' : TableNode) (header : bool)
    (column_names_kw : option (list string)) (row_limit : option Z) :
  Py.index tables i = Ok table_html ->
  Py.index tables' i = Ok table_html' ->
  parse_thead_tr table_html = parse_thead_tr table_html' ->
  parse_tbody_tr table_html = parse_tbody_tr table_html' ->
  Forall row_parses (parse_tfoot_tr table_html) ->
  Forall row_parses (parse_tfoot_tr table_html') ->
  from_html tables (One (IdInt i)) header column_names_kw row_limit =
  from_html tables' (One (IdInt i)) header column_names_kw row_limit.
Proof.
  intros Hi Hi' Hhead Hbody Hfoot Hfoot'.
  rewrite !from_html_one, (load_table_found _ _ _ _ _ _ Hi),
    (load_table_found _ _ _ _ _ _ Hi').
  assert (fst (classify_rows table_html row_limit)
          = fst (classify_rows table_html' row_limit)) as ->.
  { unfold classify_rows. rewrite Hhead, Hbody.
    destruct (parse_thead_tr table_html');
      [destruct (move_header_rows _ _)|]; reflexivity. }
  destruct (expand_ok_of_parses _ Hfoot) as [foot ->].
  destruct (expand_ok_of_parses _ Hfoot') as [foot' ->].
  reflexivity.
Qed.

Lemma foot_rows_dropped_witness :
  from_html [mkTable [Sample.tr [Sample.th "City"]] [Sample.tr [Sample.td "Oslo"]] []
                     [Sample.tr [Sample.td "Total"]]]
            (One (IdInt 0)) true None None =
  from_html [mkTable [Sample.tr [Sample.th "City"]] [Sample.tr [Sample.td "Oslo"]] [] []]
            (One (IdInt 0)) true None None.
Proof.
  apply (foot_rows_dropped _ _ 0
           (mkTable [Sample.tr [Sample.th "City"]] [Sample.tr [Sample.td "Oslo"]] []
                    [Sample.tr [Sample.td "Total"]])
           (mkTable [Sample.tr [Sample.th "City"]] [Sample.tr [Sample.td "Oslo"]] [] [])).
  - reflexivity.
  - reflexivity.
  - reflexivity.
  - reflexivity.
  - repeat constructor; exists 1, 1; split; reflexivity.
  - constructor.
Defined.

Section Limits.

Lemma index_ok_in {A} (l : list A) (i : Z) (a : A) : Py.index l i = Ok a -> In a l.
Proof.
  unfold Py.index. cbv zeta.
  destruct ((if i <? 0 then Z.of_nat (length l) + i else i) <? 0); [discriminate|].
  destruct (nth_error l _) as [b|] eqn:E; [|discriminate].
  intros [= <-]. eapply nth_error_In, E.
Qed.

Lemma slice_to_all {A} (l : list A) (n : Z) :
  Z.of_nat (length l) <= n -> Py.slice_to l n = l.
Proof.
  intros H. unfold Py.slice_to.
  assert ((n <? 0) = false) as -> by (apply Z.ltb_ge; lia).
  apply firstn_all2. lia.
Qed.

Lemma load_table_large_limit (doc : list TableNode) (header : bool)
    (column_names_kw : option (list string)) (n : Z) (id : table_id) :
  Forall (fun t => Z.of_nat (length (parse_tbody_tr t)) <= n) doc ->
  load_table doc header column_names_kw (Some n) id =
  load_table doc header column_names_kw None id.
Proof.
  intros H. destruct id as [s|i|shown]; try reflexivity.
  unfold load_table. destruct (Py.index doc i) as [table_html|] eqn:Hi; [|reflexivity].
  cbn [bind]. apply index_ok_in in Hi.
  rewrite List.Forall_forall in H. specialize (H _ Hi).
  unfold classify_rows, limit_rows. rewrite (slice_to_all _ _ H). reflexivity.
Qed.

Lemma load_tables_large_limit (doc : list TableNode) (header : bool)
    (column_names_kw : option (list string)) (n : Z) (ids : list table_id)
    (tables : list (table_id * Table)) :
  Forall (fun t => Z.of_nat (length (parse_tbody_tr t)) <= n) doc ->
  load_tables doc header column_names_kw (Some n) ids tables =
  load_tables doc header column_names_kw None ids tables.
Proof.
  intros H. revert tables. induction ids as [|id ids IH]; intros tables; cbn; [reflexivity|].
  rewrite (load_table_large_limit _ _ _ _ _ H).
  destruct (load_table doc header column_names_kw None id); cbn [bind];
    [apply IH | reflexivity].
Qed.


End Limits.

(** X16. [row_limit] cuts the body rows as a slice does: what is kept is a
    prefix of the rows; a limit of 0 or more keeps that many rows, all of
    them when there are fewer; a negative limit is not refused, it drops
    that many rows from the end. *)
Theorem limit_rows_count (body_rows : list TrNode) (n : Z) :
  (exists rest : list TrNode, body_rows = limit_rows body_rows (Some n) ++ rest) /\
  length (limit_rows body_rows (Some n)) =
  Z.to_nat (Z.min (Z.of_nat (length body_rows))
                  (if n <? 0 then Z.of_nat (length body_rows) + n else n)).
Proof.
  split; [apply limit_rows_prefix|].
  cbn [limit_rows]. unfold Py.slice_to.
  destruct (n <? 0) eqn:E; rewrite length_firstn.
  - apply Z.ltb_lt in E. lia.
  - apply Z.ltb_ge in E. lia.
Qed.

(** X17. A [row_limit] that no table's body reaches changes nothing: the
    result is that of the call without a limit. *)
Theorem large_row_limit (doc : list TableNode) (table_identifier : table_identifier_arg)
    (header : bool) (column_names_kw : option (list string)) (n : Z) :
  Forall (fun t => Z.of_nat (length (parse_tbody_tr t)) <= n) doc ->
  from_html doc table_identifier header column_names_kw (Some n) =
  from_html doc table_identifier header column_names_kw None.
Proof.
  intros H. unfold from_html.
  destruct table_identifier as [id|ids]; rewrite (load_tables_large_limit _ _ _ _ _ _ H);
    reflexivity.
Qed.

Lemma large_row_limit_witness :
  from_html two_tables (Many [IdInt 1; IdInt 0]) true None (Some 1) =
  from_html two_tables (Many [IdInt 1; IdInt 0]) true None None.
Proof.
  apply (large_row_limit two_tables (Many [IdInt 1; IdInt 0]) true None 1).
  repeat constructor; cbn; lia.
Defined.



Section Sequences.

Lemma odict_set_in (d : list (table_id * Table)) (key k : table_id) (value v : Table) :
  In (k, v) (odict_set d key value) -> (k = key /\ v = value) \/ In (k, v) d.
Proof.
  induction d as [|[k0 v0] d IH]; cbn.
  - intros [[= <- <-]|[]]. left. split; reflexivity.
  - destruct (table_id_eqb k0 key) eqn:E; cbn.
    + apply table_id_eqb_eq in E. subst k0.
      intros [[= <- <-]|H]; [left; split; reflexivity | right; right; exact H].
    + intros [H|H]; [right; left; exact H|].
      destruct (IH H) as [H'|H']; [left; exact H' | right; right; exact H'].
Qed.

Lemma odict_set_keys (d : list (table_id * Table)) (key : table_id) (value : Table) :
  List.map fst (odict_set d key value) =
  if existsb (fun k => table_id_eqb k key) (List.map fst d)
  then List.map fst d
  else List.map fst d ++ [key].
Proof.
  induction d as [|[k0 v0] d IH]; cbn; [reflexivity|].
  destruct (table_id_eqb k0 key); cbn; [reflexivity|].
  rewrite IH. destruct (existsb _ _); reflexivity.
Qed.

Lemma existsb_key (ks : list table_id) (key : table_id) :
  existsb (fun k => table_id_eqb k key) ks = true <-> In key ks.
Proof.
  rewrite existsb_exists. split.
  - intros (k & Hin & E). apply table_id_eqb_eq in E. subst. exact Hin.
  - intros H. exists key. split; [exact H | now apply table_id_eqb_eq].
Qed.

Lemma odict_set_keys_in (d : list (table_id * Table)) (key k : table_id) (value : Table) :
  In k (List.map fst (odict_set d key value)) <-> k = key \/ In k (List.map fst d).
Proof.
  rewrite odict_set_keys.
  destruct (existsb _ _) eqn:E.
  - apply existsb_key in E. split; [auto | intros [->|H]; assumption].
  - rewrite in_app_iff. cbn. intuition.
Qed.

Lemma odict_set_keys_nodup (d : list (table_id * Table)) (key : table_id) (value : Table) :
  List.NoDup (List.map fst d) -> List.NoDup (List.map fst (odict_set d key value)).
Proof.
  intros H. rewrite odict_set_keys. destruct (existsb _ _) eqn:E; [exact H|].
  assert (~ In key (List.map fst d)) as Hn.
  { intros Hin. apply existsb_key in Hin. congruence. }
  apply List.NoDup_app; [exact H | repeat constructor; intros [] |].
  intros k Hk [<-|[]]. exact (Hn Hk).
Qed.

(** What the loop over the identifiers leaves in [tables]. *)
Lemma load_tables_items (doc : list TableNode) (header : bool)
    (column_names_kw : option (list string)) (row_limit : option Z)
    (ids : list table_id) (tables items : list (table_id * Table)) :
  load_tables doc header column_names_kw row_limit ids tables = Ok items ->
  (forall k v, In (k, v) items ->
     In (k, v) tables \/ load_table doc header column_names_kw row_limit k = Ok v) /\
  (forall k, In k (List.map fst items) <-> In k (List.map fst tables) \/ In k ids) /\
  (List.NoDup (List.map fst tables) -> List.NoDup (List.map fst items)) /\
  (List.NoDup ids -> (forall k, In k ids -> ~ In k (List.map fst tables)) ->
   List.map fst items = List.map fst tables ++ ids).
Proof.
  revert tables. induction ids as [|id ids IH]; intros tables E; cbn in E.
  - injection E as <-. repeat split; auto.
    + intros [H|[]]. exact H.
    + intros _ _. now rewrite app_nil_r.
  - destruct (load_table doc header column_names_kw row_limit id) as [t|] eqn:Et;
      [|discriminate].
    cbn [bind] in E. destruct (IH _ E) as (H1 & H2 & H3 & H4).
    split; [|split; [|split]].
    + intros k v Hin. destruct (H1 k v Hin) as [H|H]; [|right; exact H].
      destruct (odict_set_in _ _ _ _ _ H) as [[-> ->]|H']; [right; exact Et | left; exact H'].
    + intros k. rewrite H2, odict_set_keys_in. cbn. intuition.
    + intros Hnd. apply H3, odict_set_keys_nodup, Hnd.
    + intros Hnd Hfresh. inversion Hnd as [|? ? Hid Hnd']; subst.
      rewrite H4.
      * rewrite odict_set_keys.
        destruct (existsb _ _) eqn:Ex.
        { apply existsb_key in Ex. exfalso. apply (Hfresh id); [left; reflexivity | exact Ex]. }
        rewrite <- app_assoc. reflexivity.
      * exact Hnd'.
      * intros k Hk Hin. apply odict_set_keys_in in Hin. destruct Hin as [->|Hin].
        { exact (Hid Hk). }
        { apply (Hfresh k); [right; exact Hk | exact Hin]. }
Qed.

End Sequences.

(** X19. A call for several tables that succeeds returns a sequence with
    one entry per distinct identifier asked for; the table of an entry is
    the table the call for that identifier alone returns, and without a
    repeated identifier the entries are in the order of the request. *)
Theorem mapped_sequence_items (doc : list TableNode) (ids : list table_id)
    (header : bool) (column_names_kw : option (list string)) (row_limit : option Z)
    (result : loaded) :
  from_html doc (Many ids) header column_names_kw row_limit = Ok result ->
  exists items : list (table_id * Table),
    result = MappedSequence items /\
    List.NoDup (List.map fst items) /\
    (forall id, In id (List.map fst items) <-> In id ids) /\
    (forall id t, In (id, t) items ->
       from_html doc (One id) header column_names_kw row_limit = Ok (OneTable t)) /\
    (List.NoDup ids -> List.map fst items = ids).
Proof.
  unfold from_html at 1. intros E.
  destruct (load_tables doc header column_names_kw row_limit ids []) as [items|] eqn:El;
    [|discriminate].
  cbn [bind] in E. injection E as <-.
  destruct (load_tables_items _ _ _ _ _ _ _ El) as (H1 & H2 & H3 & H4).
  exists items. split; [reflexivity|]. split; [apply H3; constructor|].
  split; [|split].
  - intros id. rewrite H2. cbn. intuition.
  - intros id t Hin. rewrite from_html_one.
    destruct (H1 id t Hin) as [Hnil|Hload]; [destruct Hnil|].
    rewrite Hload. reflexivity.
  - intros Hnd. rewrite H4; [reflexivity | exact Hnd | intros k _ []].
Qed.

Lemma mapped_sequence_items_witness :
  exists items : list (table_id * Table),
    MappedSequence [(IdInt 1, mkTableArgs [["1999"]] ["Year"]);
                    (IdInt 0, mkTableArgs [["Oslo"]] ["City"])]
      = MappedSequence items /\
    List.NoDup (List.map fst items) /\
    (forall id, In id (List.map fst items) <-> In id [IdInt 1; IdInt 0; IdInt 1]).
Proof.
  destruct (mapped_sequence_items two_tables [IdInt 1; IdInt 0; IdInt 1] true None None
              (MappedSequence [(IdInt 1, mkTableArgs [["1999"]] ["Year"]);
                               (IdInt 0, mkTableArgs [["Oslo"]] ["City"])]))
    as (items & H1 & H2 & H3 & _).
  - reflexivity.
  - exists items. split; [exact H1|]. split; [exact H2 | exact H3].
Defined.

Section ColumnNames.

Lemma append_cell_texts (n : nat) (t : string) (r : Z) (st : RowState) :
  texts (append_cell n t r st) = texts st ++ repeat t n /\
  remainder (append_cell n t r st) = remainder st.
Proof.
  revert st. induction n as [|n IH]; intros st; cbn [append_cell repeat].
  - now rewrite app_nil_r.
  - destruct (IH (mkRowState (remainder st) (texts st ++ [t])
                    (if 1 <? r then next_remainder st ++ [(index st, t, r - 1)]
                     else next_remainder st) (index st + 1))) as [-> ->].
    cbn. rewrite <- app_assoc. split; reflexivity.
Qed.

Lemma expand_tds_first_row (tds : list Node) (st st' : RowState) :
  remainder st = [] ->
  expand_tds tds st = Ok st' ->
  remainder st' = [] /\
  texts st' = texts st ++ flat_map (fun td => repeat (cell_text td) (colspan_of td)) tds.
Proof.
  revert st. induction tds as [|td tds IH]; intros st Hrem E; cbn in E.
  - injection E as <-. cbn. now rewrite app_nil_r.
  - destruct (expand_td td st) as [st1|] eqn:E1; [|discriminate].
    cbn [bind] in E. unfold expand_td in E1. rewrite Hrem in E1.
    cbn [flush_before] in E1. unfold colspan_of. cbn [flat_map].
    destruct (span_attr td "rowspan") as [r|]; [|discriminate].
    destruct (span_attr td "colspan") as [c|]; [|discriminate].
    cbn [bind] in E1. injection E1 as <-.
    destruct (append_cell_texts (Z.to_nat c) (_remove_whitespace (text_getter td)) r
                (mkRowState [] (texts st) (next_remainder st) (index st))) as [Ht Hr].
    destruct (IH _ Hr E) as [-> ->]. rewrite Ht. cbn [texts].
    rewrite <- app_assoc. split; reflexivity.
Qed.

(** The first row of an expansion is the first row's own texts. *)
Lemma expand_first_row (tr : TrNode) (rest : list TrNode) (out : list DenseRow) :
  expand_colspan_rowspan (tr :: rest) = Ok out ->
  exists more : list DenseRow, out = first_row_texts tr :: more.
Proof.
  intros E. destruct (expand_colspan_rowspan_ok _ _ E) as (all_texts & rem & Hloop & _ & ->).
  cbn [expand_rows] in Hloop. unfold expand_tr in Hloop.
  destruct (expand_tds (parse_td tr) (mkRowState [] [] [] 0)) as [st|] eqn:E1;
    [|discriminate].
  destruct (expand_tds_first_row _ (mkRowState [] [] [] 0) _ eq_refl E1) as [Hrem Htxt].
  cbn [bind] in Hloop. rewrite Hrem, Htxt in Hloop. cbn [flush_all fst snd app texts] in Hloop.
  rewrite expand_rows_from in Hloop.
  destruct (expand_rows rest [] (next_remainder st)) as [r|]; [|discriminate].
  cbn [bind] in Hloop. injection Hloop as <- _.
  eexists. cbn [app]. reflexivity.
Qed.

End ColumnNames.

(** X20. With [header=True] the column names are the texts of the first
    head row (the first [thead] row; without one, the first body row when
    it is made of [th] cells only): the text of each of its cells, once per
    column the cell spans. *)
Theorem column_names_first_head_row (tables : list TableNode) (i : Z)
    (table_html : TableNode) (column_names_kw : option (list string))
    (row_limit : option Z) (tr : TrNode) (t : Table) :
  Py.index tables i = Ok table_html ->
  (exists more, parse_thead_tr table_html = tr :: more) \/
  (parse_thead_tr table_html = [] /\
   exists rest, limit_rows (parse_tbody_tr table_html) row_limit = tr :: rest /\
                row_is_all_th tr = true) ->
  from_html tables (One (IdInt i)) true column_names_kw row_limit = Ok (OneTable t) ->
  column_names t = first_row_texts tr.
Proof.
  intros Hi Hhead E.
  assert (exists more, fst (fst (classify_rows table_html row_limit)) = tr :: more)
    as [more Hclass].
  { destruct Hhead as [[more Hm] | (Hnil & rest & Hbody & Hth)].
    - exists more. rewrite classify_rows_explicit_head by (rewrite Hm; discriminate).
      exact Hm.
    - rewrite (classify_rows_no_head _ _ Hnil), Hbody. cbn [move_header_rows fst].
      rewrite Hth, (move_header_rows_prefix ([] ++ [tr]) rest). cbn [fst app]. eauto. }
  rewrite from_html_one, (load_table_found _ _ _ _ _ _ Hi), Hclass in E.
  destruct (expand_colspan_rowspan (tr :: more)) as [head|] eqn:Eh; [|discriminate].
  destruct (expand_first_row _ _ _ Eh) as [more' ->].
  cbn [bind] in E.
  destruct (expand_colspan_rowspan (snd (fst (classify_rows table_html row_limit))))
    as [body|]; [|discriminate].
  destruct (expand_colspan_rowspan (parse_tfoot_tr table_html)) as [foot|]; [|discriminate].
  cbn in E. injection E as <-. reflexivity.
Qed.

Lemma column_names_first_head_row_witness :
  ["Name"; "Age"] = first_row_texts (Sample.tr [Sample.th "Name"; Sample.th "Age"]).
Proof.
  apply (column_names_first_head_row [implicit_header_table] 0 implicit_header_table
           None None (Sample.tr [Sample.th "Name"; Sample.th "Age"])
           (mkTableArgs [["Ada"; "36"]; ["Alan"; "41"]] ["Name"; "Age"])).
  - reflexivity.
  - right. split; [reflexivity|]. eexists. split; reflexivity.
  - reflexivity.
Defined.

(** * Hidden tables *)

Section Hidden.

Lemma append_cons (c : ascii) (s t : string) :
  String.append (String c s) t = String c (String.append s t).
Proof. reflexivity. Qed.

Lemma append_nil (t : string) : String.append EmptyString t = t.
Proof. reflexivity. Qed.

Lemma prefix_spec (needle hay : string) :
  String.prefix needle hay = true <->
  exists post : string, hay = String.append needle post.
Proof.
  revert hay. induction needle as [|c needle IH]; intros hay.
  - split; [intros _; exists hay; reflexivity | intros _; destruct hay; reflexivity].
  - destruct hay as [|d hay]; cbn [String.prefix].
    + split; [discriminate|]. intros [post H]. rewrite append_cons in H. discriminate.
    + destruct (Ascii.ascii_dec c d) as [->|Hne].
      * rewrite IH. split; intros [post H]; exists post.
        { rewrite append_cons, H. reflexivity. }
        { rewrite append_cons in H. congruence. }
      * split; [discriminate|]. intros [post H]. rewrite append_cons in H. congruence.
Qed.

(** [needle in hay] holds when [hay] is some text, [needle], some text. *)
Lemma contains_spec (needle hay : string) :
  Py.contains needle hay = true <->
  exists pre post : string, hay = String.append pre (String.append needle post).
Proof.
  induction hay as [|d hay IH]; cbn [Py.contains].
  - rewrite prefix_spec. split.
    + intros [post H]. exists EmptyString, post. rewrite append_nil. exact H.
    + intros (pre & post & H). destruct pre as [|c pre].
      * rewrite append_nil in H. eauto.
      * rewrite append_cons in H. discriminate.
  - rewrite orb_true_iff, prefix_spec, IH. split.
    + intros [[post H] | (pre & post & H)].
      * exists EmptyString, post. rewrite append_nil. exact H.
      * exists (String d pre), post. rewrite append_cons. congruence.
    + intros (pre & post & H). destruct pre as [|c pre].
      * rewrite append_nil in H. left. eauto.
      * rewrite append_cons in H. right. exists pre, post. congruence.
Qed.

End Hidden.

(** X21. With [displayed_only], [_handle_hidden_tables] keeps, in their
    order, the tables whose [style] attribute, its spaces removed, does
    not hold the text [display:none]; a table without a [style] attribute
    is kept.  Filtering a second time changes nothing, and without
    [displayed_only] the list is returned as it is. *)
Theorem hidden_tables_dropped (tbl_list : list Node)
    (attr_name : Node -> gmap string string) :
  (forall x : Node,
      In x (_handle_hidden_tables tbl_list attr_name true) <->
      In x tbl_list /\
      ~ exists pre post : string,
          Py.remove_spaces (default ""%string (attr_name x !! "style"))
          = String.append pre (String.append "display:none" post)) /\
  (forall x : Node,
      In x tbl_list -> attr_name x !! "style" = None ->
      In x (_handle_hidden_tables tbl_list attr_name true)) /\
  sublist (_handle_hidden_tables tbl_list attr_name true) tbl_list /\
  _handle_hidden_tables (_handle_hidden_tables tbl_list attr_name true) attr_name true
    = _handle_hidden_tables tbl_list attr_name true /\
  _handle_hidden_tables tbl_list attr_name false = tbl_list.
Proof.
  unfold _handle_hidden_tables. cbn [negb].
  set (keep := fun x : Node =>
                 negb (Py.contains "display:none"
                         (Py.remove_spaces (default ""%string (attr_name x !! "style"))))).
  split; [|split; [|split; [|split]]].
  - intros x. rewrite List.filter_In. unfold keep.
    rewrite negb_true_iff, <- not_true_iff_false, contains_spec. reflexivity.
  - intros x Hin Hnone. apply List.filter_In. split; [exact Hin|].
    unfold keep. rewrite Hnone. reflexivity.
  - induction tbl_list as [|x l IH]; [constructor|].
    cbn [List.filter]. destruct (keep x); [apply sublist_skip | apply sublist_cons];
      exact IH.
  - induction tbl_list as [|x l IH]; [reflexivity|].
    cbn [List.filter]. destruct (keep x) eqn:E; [|exact IH].
    cbn [List.filter]. rewrite E, IH. reflexivity.
  - reflexivity.
Qed.

(** * Spreadsheet cells *)

Section Booleans.

Lemma normalize_booleans_from_spec (values : list pyval) (normalized : list (option bool)) :
  normalize_booleans_from values normalized =
  normalized ++ List.map normalized_boolean values.
Proof.
  revert normalized. induction values as [|v values IH]; intros normalized; cbn.
  - now rewrite app_nil_r.
  - unfold normalized_boolean at 1.
    destruct (none_or_empty v); rewrite IH, <- app_assoc; reflexivity.
Qed.

End Booleans.

(** X22. [normalize_booleans] gives one result per value, in order: [None]
    for [None] and for the empty string, the truth value of the value for
    every other one (so [0] and [False] give [False], not [None]); the
    results of a list made of two lists are the results of the two. *)
Theorem normalize_booleans_pointwise (values more : list pyval) :
  length (normalize_booleans values) = length values /\
  (forall (i : nat) (value : pyval),
      nth_error values i = Some value ->
      nth_error (normalize_booleans values) i =
      Some (match value with
            | VNone => None
            | VStr s => if String.eqb s "" then None else Some true
            | VInt n => Some (negb (n =? 0))
            | VBool b => Some b
            end)) /\
  normalize_booleans (values ++ more) =
  normalize_booleans values ++ normalize_booleans more.
Proof.
  unfold normalize_booleans. rewrite !normalize_booleans_from_spec. cbn [app].
  split; [apply length_map|]. split.
  - intros i value H. rewrite nth_error_map, H. cbn. f_equal.
    destruct value as [|b|n|s]; try reflexivity.
    unfold normalized_boolean. cbn. destruct (String.eqb s ""); reflexivity.
  - apply List.map_app.
Qed.

(** X23. Normalising twice is normalising once: taken as values again,
    the results of [normalize_booleans] are left as they are. *)
Theorem normalize_booleans_idempotent (values : list pyval) :
  normalize_booleans (List.map value_of_boolean (normalize_booleans values)) =
  normalize_booleans values.
Proof.
  unfold normalize_booleans. rewrite !normalize_booleans_from_spec. cbn [app].
  rewrite !List.map_map. apply List.map_ext. intros v.
  unfold normalized_boolean.
  destruct (none_or_empty v); [reflexivity|]. cbn. reflexivity.
Qed.

Section ExcelTypes.


End ExcelTypes.



